(** * ShiftFlow frontend: session store, notification queue and task board

    A shallow embedding of [src/pages/index.js].  The page is a tree of React
    components; what is embedded here is the control logic of their handlers:

    - [AuthProvider]: the mount effect that probes a saved token, [login],
      [register], [logout];
    - [NotificationProvider]: [addNotification], [removeNotification] and the
      timers they leave behind;
    - [RegisterForm]'s [handleSubmit];
    - [Dashboard]: [loadTasks], [createTask], [updateTaskStatus], the
      [tasksByStatus] view, and [TaskCard]'s [getStatusActions].

    Handlers are computations in a state-and-exception monad over one [world]
    record (browser storage, clock, timers, request log, console and the
    components' React state).  What the server answers to the single [fetch]
    of a handler is an argument of that handler.

    Strings are kept in UTF-8 and measured in UTF-16 code units where the
    page reads [.length]; numbers are kept as the text [String] prints for
    them; objects and arrays carry the place they live at, which is what
    [===] compares; the words of an engine-raised [TypeError] belong to the
    browser and are read from the [world]. *)

From Stdlib Require Import ZArith String List Lia Permutation.
From stdpp Require Import base strings gmap list.

Set Warnings "-register-all".

Open Scope string_scope.
Open Scope list_scope.
Open Scope Z_scope.

(** ** JavaScript values *)

(** Strings are kept in UTF-8. *)

(** A number is kept as the text [String] gives for it ("15", "-0.5",
    "1e+21"): that text determines the number, up to the sign of zero,
    which nothing in the page tells apart ([String(-0)] is "0"). *)
Definition number : Type := string.

(** Where an object or an array lives: two of them are [===] when they are
    one and the same. *)
Definition loc : Type := N.

(** The objects the page builds itself for a request body.  They go to
    [JSON.stringify] and nowhere else, so their identity never shows. *)
Definition literal : loc := 0%N.

(** The values [JSON.parse] can produce, and [undefined]. *)
Inductive value : Type :=
| VUndefined
| VNull
| VBool (b : bool)
| VNum (text : number)
| VStr (s : string)
| VArr (ref : loc) (items : list value)
| VObj (ref : loc) (props : list (string * value)).

(** An object is the list of its own properties, each under its name
    once, as [JSON.parse] builds it. *)
Definition object : Type := list (string * value).

(** ToBoolean: [undefined], [null], [false], [0], [NaN] and the empty string
    are falsy, everything else is truthy. *)
Definition truthy (v : value) : bool :=
  match v with
  | VUndefined | VNull => false
  | VBool b => b
  | VNum text => negb (String.eqb text "0" || String.eqb text "NaN")
  | VStr s => negb (String.eqb s EmptyString)
  | VArr _ _ | VObj _ _ => true
  end.

(** [a || b] *)
Definition or_else (a b : value) : value := if truthy a then a else b.

(** [o.k] on an object: the property, or [undefined]. *)
Fixpoint prop (o : object) (k : string) : value :=
  match o with
  | [] => VUndefined
  | (k', v) :: rest => if String.eqb k' k then v else prop rest k
  end.

(** [a === b].  Primitives are compared by value ([NaN] equals nothing),
    objects and arrays by identity. *)
Definition strict_eq (a b : value) : bool :=
  match a, b with
  | VUndefined, VUndefined => true
  | VNull, VNull => true
  | VBool x, VBool y => Bool.eqb x y
  | VNum x, VNum y => String.eqb x y && negb (String.eqb x "NaN")
  | VStr x, VStr y => String.eqb x y
  | VArr r _, VArr r' _ => N.eqb r r'
  | VObj r _, VObj r' _ => N.eqb r r'
  | _, _ => false
  end.

(** [String(v)]: what a template literal, [new Error(v)] and
    [localStorage.setItem(k, v)] turn [v] into. *)
Fixpoint to_string (v : value) : string :=
  match v with
  | VUndefined => "undefined"
  | VNull => "null"
  | VBool true => "true"
  | VBool false => "false"
  | VNum text => text
  | VStr s => s
  | VArr _ items =>
      String.concat ","
        (map (fun x => match x with
                       | VUndefined | VNull => EmptyString
                       | _ => to_string x
                       end) items)
  | VObj _ _ => "[object Object]"
  end.

(** ** Exceptions *)

(** [Error] is what the page throws itself with [new Error(...)];
    [TypeError] and [SyntaxError] are thrown by the runtime. *)
Inductive exn : Type :=
| Error (message : string)
| TypeError (message : string)
| SyntaxError (message : string).

(** [error.message] *)
Definition message (e : exn) : string :=
  match e with
  | Error m | TypeError m | SyntaxError m => m
  end.

(** [new Error(v)]: the message is [String(v)], empty for [undefined]. *)
Definition new_Error (v : value) : exn :=
  Error (match v with VUndefined => EmptyString | _ => to_string v end).

Inductive outcome (A : Type) : Type :=
| Return (a : A)
| Throw (e : exn).
Arguments Return {A} a.
Arguments Throw {A} e.

(** ** The network *)

(** [response.json()]: the body either fails to parse or yields a value. *)
Inductive parsed (A : Type) : Type :=
| Garbled (why : string)
| Parsed (a : A).
Arguments Garbled {A} why.
Arguments Parsed {A} a.

(** A response.  When [response.ok] the body, if it parses, is what the API
    documents for the endpoint (type [A]); otherwise it is any JSON. *)
Inductive response (A : Type) : Type :=
| Ok2xx (body : parsed A)
| NotOk (body : parsed value).
Arguments Ok2xx {A} body.
Arguments NotOk {A} body.

Definition ok {A} (r : response A) : bool :=
  match r with Ok2xx _ => true | NotOk _ => false end.

(** What a [fetch] comes to: the promise rejects (no connection) or resolves
    with a response. *)
Inductive reply (A : Type) : Type :=
| Unreachable (why : string)
| Answer (r : response A).
Arguments Unreachable {A} why.
Arguments Answer {A} r.

Record request : Type := {
  method : string;
  url : string;
  authorization : option string;
  payload : option value
}.

(** ** Component state *)

Module Notification.
Record t : Type := mk { id : Z; message : value; type : string }.
End Notification.

(** A pending [setTimeout]: when it is due and the notification id its
    callback filters out. *)
Record timer : Type := { due : Z; target : Z }.

Module Auth.
Record state : Type := mk { user : value; loading : bool; token : value }.
Definition init : state := mk VNull true VNull.
End Auth.

Module Dash.
Record state : Type :=
  mk { tasks : list object; loading : bool; showCreateTask : bool }.
Definition init : state := mk [] true false.
End Dash.

Record world : Type := {
  localStorage : gmap string string;
  now : Z;                                (* Date.now() *)
  timers : list timer;
  requests : list request;                (* every fetch issued so far *)
  console : list exn;                     (* console.error *)
  auth : Auth.state;
  notifications : list Notification.t;
  dash : Dash.state;
  registerLoading : bool;                 (* RegisterForm's loading *)
  null_read_message : string -> string -> string
    (* the engine's words for the TypeError of reading a property of
       null or undefined: of what, which property *)
}.

Definition with_localStorage (f : gmap string string -> gmap string string) (w : world) : world :=
  {| localStorage := f (localStorage w); now := now w; timers := timers w;
     requests := requests w; console := console w; auth := auth w;
     notifications := notifications w; dash := dash w;
     registerLoading := registerLoading w;
     null_read_message := null_read_message w |}.

Definition with_now (f : Z -> Z) (w : world) : world :=
  {| localStorage := localStorage w; now := f (now w); timers := timers w;
     requests := requests w; console := console w; auth := auth w;
     notifications := notifications w; dash := dash w;
     registerLoading := registerLoading w;
     null_read_message := null_read_message w |}.

Definition with_timers (f : list timer -> list timer) (w : world) : world :=
  {| localStorage := localStorage w; now := now w; timers := f (timers w);
     requests := requests w; console := console w; auth := auth w;
     notifications := notifications w; dash := dash w;
     registerLoading := registerLoading w;
     null_read_message := null_read_message w |}.

Definition with_requests (f : list request -> list request) (w : world) : world :=
  {| localStorage := localStorage w; now := now w; timers := timers w;
     requests := f (requests w); console := console w; auth := auth w;
     notifications := notifications w; dash := dash w;
     registerLoading := registerLoading w;
     null_read_message := null_read_message w |}.

Definition with_console (f : list exn -> list exn) (w : world) : world :=
  {| localStorage := localStorage w; now := now w; timers := timers w;
     requests := requests w; console := f (console w); auth := auth w;
     notifications := notifications w; dash := dash w;
     registerLoading := registerLoading w;
     null_read_message := null_read_message w |}.

Definition with_auth (f : Auth.state -> Auth.state) (w : world) : world :=
  {| localStorage := localStorage w; now := now w; timers := timers w;
     requests := requests w; console := console w; auth := f (auth w);
     notifications := notifications w; dash := dash w;
     registerLoading := registerLoading w;
     null_read_message := null_read_message w |}.

Definition with_notifications (f : list Notification.t -> list Notification.t) (w : world) : world :=
  {| localStorage := localStorage w; now := now w; timers := timers w;
     requests := requests w; console := console w; auth := auth w;
     notifications := f (notifications w); dash := dash w;
     registerLoading := registerLoading w;
     null_read_message := null_read_message w |}.

Definition with_dash (f : Dash.state -> Dash.state) (w : world) : world :=
  {| localStorage := localStorage w; now := now w; timers := timers w;
     requests := requests w; console := console w; auth := auth w;
     notifications := notifications w; dash := f (dash w);
     registerLoading := registerLoading w;
     null_read_message := null_read_message w |}.

Definition with_registerLoading (f : bool -> bool) (w : world) : world :=
  {| localStorage := localStorage w; now := now w; timers := timers w;
     requests := requests w; console := console w; auth := auth w;
     notifications := notifications w; dash := dash w;
     registerLoading := f (registerLoading w);
     null_read_message := null_read_message w |}.

(** ** The monad of handlers *)

Definition js (A : Type) : Type := world -> outcome A * world.

Definition ret {A} (a : A) : js A := fun w => (Return a, w).

Definition bind {A B} (m : js A) (k : A -> js B) : js B :=
  fun w => match m w with
           | (Return a, w') => k a w'
           | (Throw e, w') => (Throw e, w')
           end.

Definition throw {A} (e : exn) : js A := fun w => (Throw e, w).

(** [try { m } catch (e) { h e }] *)
Definition try_catch {A} (m : js A) (h : exn -> js A) : js A :=
  fun w => match m w with
           | (Return a, w') => (Return a, w')
           | (Throw e, w') => h e w'
           end.

(** [try { m } finally { c }]: [c] runs on both exits and the outcome of [m]
    stands unless [c] throws itself. *)
Definition try_finally {A} (m : js A) (c : js unit) : js A :=
  fun w => match m w with
           | (r, w') => match c w' with
                        | (Return _, w'') => (r, w'')
                        | (Throw e, w'') => (Throw e, w'')
                        end
           end.

Definition update (f : world -> world) : js unit := fun w => (Return tt, f w).

Definition read {A} (f : world -> A) : js A := fun w => (Return (f w), w).

Declare Scope js_scope.
Delimit Scope js_scope with js.
Notation "'let*' x ':=' m 'in' k" := (bind m (fun x => k))
  (at level 10, x name, m at level 100, k at level 200) : js_scope.
Notation "m ;; k" := (bind m (fun _ => k))
  (at level 100, k at level 200, right associativity) : js_scope.
Open Scope js_scope.

(** ** Browser services *)

(** [v.k] on any value: reading a property of [null] or [undefined] throws
    the engine's [TypeError], a primitive or an array has no property of
    the names read here ([error]), an object answers [prop]. *)
Definition get (v : value) (k : string) : js value :=
  fun w => match v with
           | VUndefined => (Throw (TypeError (null_read_message w "undefined" k)), w)
           | VNull => (Throw (TypeError (null_read_message w "null" k)), w)
           | VObj _ o => (Return (prop o k), w)
           | _ => (Return VUndefined, w)
           end.

(** [s.length]: the number of UTF-16 code units of [s].  In UTF-8 that is
    one for every byte that starts a character, and one more when the
    character lies outside the basic plane (a sequence of four bytes);
    continuation bytes count for nothing. *)
Definition code_units (c : Ascii.ascii) : nat :=
  let n := Ascii.N_of_ascii c in
  if (n <? 128)%N then 1%nat          (* one-byte character *)
  else if (n <? 192)%N then 0%nat     (* continuation byte *)
  else if (n <? 240)%N then 1%nat     (* starts a 2- or 3-byte character *)
  else 2%nat.                         (* starts a 4-byte character *)

Fixpoint js_length (s : string) : nat :=
  match s with
  | EmptyString => 0%nat
  | String c rest => (code_units c + js_length rest)%nat
  end.

Definition API_BASE : string := "https://shiftflow.railway.app/api".
Definition token_key : string := "shiftflow_token".
Definition user_key : string := "shiftflow_user".

(** [fetch(url, init)]: the request goes out (it is logged), and the promise
    settles the way the environment decided. *)
Definition fetch {A} (req : request) (r : reply A) : js (response A) :=
  update (with_requests (fun sent => sent ++ [req])) ;;
  match r with
  | Unreachable why => throw (TypeError why)
  | Answer res => ret res
  end.

(** [await response.json()] *)
Definition json {A} (body : parsed A) : js A :=
  match body with
  | Garbled why => throw (SyntaxError why)
  | Parsed a => ret a
  end.

(** [localStorage.getItem(k)]: the stored string, or [null]. *)
Definition getItem (k : string) : js value :=
  read (fun w => match localStorage w !! k with
                 | Some s => VStr s
                 | None => VNull
                 end).

(** [localStorage.setItem(k, v)] stores [String(v)]. *)
Definition setItem (k : string) (v : value) : js unit :=
  update (with_localStorage (fun m => <[k := to_string v]> m)).

Definition removeItem (k : string) : js unit :=
  update (with_localStorage (fun m => delete k m)).

Definition console_error (e : exn) : js unit :=
  update (with_console (fun out => out ++ [e])).

(** [setTimeout(() => setNotifications(prev => prev.filter(n => n.id !== id)), delay)] *)
Definition setTimeout (delay : Z) (id : Z) : js unit :=
  update (fun w => with_timers
                     (fun pending => pending ++ [{| due := now w + delay; target := id |}]) w).

(** The callback of such a timer, on the notification list. *)
Definition expire (id : Z) (prev : list Notification.t) : list Notification.t :=
  List.filter (fun n => negb (Notification.id n =? id)%Z) prev.

(** The event loop lets [ms] milliseconds pass: the clock moves on and every
    timer that has come due runs its callback.  (The callbacks are filters,
    so the order in which the due ones run does not show.) *)
Definition elapse (ms : N) (w : world) : world :=
  let t := now w + Z.of_N ms in
  let ready := List.filter (fun tm => (due tm <=? t)%Z) (timers w) in
  let waiting := List.filter (fun tm => negb (due tm <=? t)%Z) (timers w) in
  with_now (fun _ => t)
    (with_timers (fun _ => waiting)
       (with_notifications
          (fun prev => fold_left (fun ns tm => expire (target tm) ns) ready prev) w)).

(** ** NotificationProvider *)

Module NotificationProvider.

Definition setNotifications (f : list Notification.t -> list Notification.t) : js unit :=
  update (with_notifications f).

(** Every call in the page passes [type]; its default ['info'] is never
    used. *)
Definition addNotification (message : value) (type : string) : js unit :=
  let* id := read now in
  let notification := Notification.mk id message type in
  setNotifications (fun prev => prev ++ [notification]) ;;
  setTimeout 5000 id.

Definition removeNotification (id : Z) : js unit :=
  setNotifications (fun prev => List.filter (fun n => negb (Notification.id n =? id)) prev).

End NotificationProvider.

(** ** AuthProvider *)

Module AuthProvider.
Section Codec.

(** The runtime's JSON codec.  [JSON_stringify] is [JSON.stringify] on a
    value other than [undefined]; [JSON_parse] is [JSON.parse], which
    throws on text that is not JSON. *)
Variable JSON_stringify : value -> string.
Variable JSON_parse : string -> parsed value.

(** [JSON.stringify(v)] answers [undefined] for [undefined]. *)
Definition stringify (v : value) : value :=
  match v with
  | VUndefined => VUndefined
  | _ => VStr (JSON_stringify v)
  end.

Definition parse (text : value) : js value :=
  match JSON_parse (to_string text) with
  | Garbled why => throw (SyntaxError why)
  | Parsed v => ret v
  end.

Definition setUser (v : value) : js unit :=
  update (with_auth (fun a => Auth.mk v (Auth.loading a) (Auth.token a))).

Definition setLoading (b : bool) : js unit :=
  update (with_auth (fun a => Auth.mk (Auth.user a) b (Auth.token a))).

Definition setToken (v : value) : js unit :=
  update (with_auth (fun a => Auth.mk (Auth.user a) (Auth.loading a) v)).

(** The mount effect: with a saved token, probe [GET /users];
    [fetch(..).then(..).catch(..).finally(..)]. *)
Definition mount (r : reply value) : js unit :=
  let* savedToken := getItem token_key in
  if truthy savedToken then
    setToken savedToken ;;
    try_finally
      (try_catch
         (let* res := fetch {| method := "GET";
                               url := API_BASE +:+ "/users";
                               authorization := Some ("Bearer " +:+ to_string savedToken);
                               payload := None |} r in
          if ok res then
            let* saved := getItem user_key in
            let* userData := parse (or_else saved (VStr "{}")) in
            setUser userData
          else
            removeItem token_key ;;
            removeItem user_key ;;
            setToken VNull)
         (fun _ =>
            removeItem token_key ;;
            removeItem user_key ;;
            setToken VNull))
      (setLoading false)
  else
    setLoading false.

Definition login (email password : string) (r : reply object) : js object :=
  try_catch
    (let* response := fetch {| method := "POST";
                               url := API_BASE +:+ "/auth/login";
                               authorization := None;
                               payload := Some (VObj literal [("email", VStr email);
                                                      ("password", VStr password)]) |} r in
     match response with
     | NotOk body =>
         let* error := json body in
         let* error_error := get error "error" in
         throw (new_Error (or_else error_error (VStr "Login failed")))
     | Ok2xx body =>
         let* data := json body in
         setItem token_key (prop data "token") ;;
         setItem user_key (stringify (prop data "user")) ;;
         setToken (prop data "token") ;;
         setUser (prop data "user") ;;
         ret data
     end)
    (fun error => throw error).

Definition register (organizationData : value) (r : reply object) : js object :=
  try_catch
    (let* response := fetch {| method := "POST";
                               url := API_BASE +:+ "/auth/register-organization";
                               authorization := None;
                               payload := Some organizationData |} r in
     match response with
     | NotOk body =>
         let* error := json body in
         let* error_error := get error "error" in
         throw (new_Error (or_else error_error (VStr "Registration failed")))
     | Ok2xx body =>
         let* data := json body in
         setItem token_key (prop data "token") ;;
         setItem user_key (stringify (prop data "user")) ;;
         setToken (prop data "token") ;;
         setUser (prop data "user") ;;
         ret data
     end)
    (fun error => throw error).

Definition logout : js unit :=
  removeItem token_key ;;
  removeItem user_key ;;
  setToken VNull ;;
  setUser VNull.

End Codec.
End AuthProvider.

(** ** RegisterForm *)

Module RegisterForm.

Record formData : Type := {
  organizationName : string;
  adminName : string;
  adminEmail : string;
  adminPassword : string
}.

(** The object [register] is handed. *)
Definition to_value (d : formData) : value :=
  VObj literal [("organizationName", VStr (organizationName d));
        ("adminName", VStr (adminName d));
        ("adminEmail", VStr (adminEmail d));
        ("adminPassword", VStr (adminPassword d))].

(** [!s] on a string *)
Definition blank (s : string) : bool := negb (truthy (VStr s)).

Definition setLoading (b : bool) : js unit :=
  update (with_registerLoading (fun _ => b)).

Definition handleSubmit (JSON_stringify : value -> string)
    (d : formData) (r : reply object) : js unit :=
  if blank (organizationName d) || blank (adminName d)
     || blank (adminEmail d) || blank (adminPassword d)
  then
    NotificationProvider.addNotification (VStr "Please fill in all fields") "error"
  else if (js_length (adminPassword d) <? 8)%nat then
    NotificationProvider.addNotification
      (VStr "Password must be at least 8 characters") "error"
  else
    setLoading true ;;
    try_finally
      (try_catch
         (AuthProvider.register JSON_stringify (to_value d) r ;;
          NotificationProvider.addNotification
            (VStr "Registration successful! Welcome to ShiftFlow!") "success")
         (fun error =>
            NotificationProvider.addNotification (VStr (message error)) "error"))
      (setLoading false).

End RegisterForm.

(** ** Dashboard *)

Module Dashboard.

(** The body of [GET /tasks]: [data.tasks] is an array of task objects when
    the field is there. *)
Record task_list : Type := { tasks : option (list object) }.

Definition setTasks (f : list object -> list object) : js unit :=
  update (with_dash (fun d =>
    Dash.mk (f (Dash.tasks d)) (Dash.loading d) (Dash.showCreateTask d))).

Definition setLoading (b : bool) : js unit :=
  update (with_dash (fun d => Dash.mk (Dash.tasks d) b (Dash.showCreateTask d))).

Definition setShowCreateTask (b : bool) : js unit :=
  update (with_dash (fun d => Dash.mk (Dash.tasks d) (Dash.loading d) b)).

(** [`Bearer ${token}`] with the session's token *)
Definition bearer : js string :=
  read (fun w => "Bearer " +:+ to_string (Auth.token (auth w))).

Definition loadTasks (r : reply task_list) : js unit :=
  try_finally
    (try_catch
       (let* authz := bearer in
        let* response := fetch {| method := "GET";
                                  url := API_BASE +:+ "/tasks";
                                  authorization := Some authz;
                                  payload := None |} r in
        match response with
        | Ok2xx body =>
            let* data := json body in
            setTasks (fun _ => match tasks data with
                               | Some listed => listed
                               | None => []
                               end)
        | NotOk _ => ret tt
        end)
       (fun error => console_error error))
    (setLoading false).

Definition createTask (taskData : value) (r : reply object) : js unit :=
  try_catch
    (let* authz := bearer in
     let* response := fetch {| method := "POST";
                               url := API_BASE +:+ "/tasks";
                               authorization := Some authz;
                               payload := Some taskData |} r in
     match response with
     | Ok2xx body =>
         let* newTask := json body in
         setTasks (fun prev => newTask :: prev) ;;
         NotificationProvider.addNotification (VStr "Task created successfully!") "success" ;;
         setShowCreateTask false
     | NotOk body =>
         let* error := json body in
         let* error_error := get error "error" in
         NotificationProvider.addNotification
           (or_else error_error (VStr "Failed to create task")) "error"
     end)
    (fun _ =>
       NotificationProvider.addNotification (VStr "Failed to create task") "error").

Definition updateTaskStatus (taskId status : value) (r : reply object) : js unit :=
  try_catch
    (let* authz := bearer in
     let* response := fetch {| method := "PUT";
                               url := API_BASE +:+ "/tasks/" +:+ to_string taskId;
                               authorization := Some authz;
                               payload := Some (VObj literal [("status", status)]) |} r in
     match response with
     | Ok2xx body =>
         let* updatedTask := json body in
         setTasks (fun prev =>
                     map (fun t => if strict_eq (prop t "id") taskId
                                   then updatedTask else t) prev) ;;
         NotificationProvider.addNotification (VStr "Task updated successfully!") "success"
     | NotOk body =>
         let* error := json body in
         let* error_error := get error "error" in
         NotificationProvider.addNotification
           (or_else error_error (VStr "Failed to update task")) "error"
     end)
    (fun _ =>
       NotificationProvider.addNotification (VStr "Failed to update task") "error").

(** The memoised view: four filters over the same collection. *)
Record board : Type := {
  todo : list object;
  in_progress : list object;
  completed : list object;
  handoff : list object
}.

Definition has_status (s : string) (t : object) : bool :=
  strict_eq (prop t "status") (VStr s).

Definition tasksByStatus (tasks : list object) : board :=
  {| todo := List.filter (has_status "todo") tasks;
     in_progress := List.filter (has_status "in_progress") tasks;
     completed := List.filter (has_status "completed") tasks;
     handoff := List.filter (has_status "handoff") tasks |}.

End Dashboard.

(** ** TaskCard *)

Module TaskCard.

Record action : Type := { label : string; status : string; color : string }.

Definition getStatusActions (currentStatus : value) : list action :=
  let actions := [] in
  let actions :=
    if strict_eq currentStatus (VStr "todo") then
      actions ++ [{| label := "Start"; status := "in_progress"; color := "bg-blue-600" |}]
    else actions in
  let actions :=
    if strict_eq currentStatus (VStr "in_progress") then
      (actions ++ [{| label := "Complete"; status := "completed"; color := "bg-green-600" |}])
        ++ [{| label := "Handoff"; status := "handoff"; color := "bg-purple-600" |}]
    else actions in
  let actions :=
    if strict_eq currentStatus (VStr "handoff") then
      actions ++ [{| label := "Complete"; status := "completed"; color := "bg-green-600" |}]
    else actions in
  actions.

(** The buttons of a card: one per action, each calling
    [onUpdateStatus(task.id, action.status)]. *)
Definition offered (t : object) : list (value * value) :=
  map (fun a => (prop t "id", VStr (status a))) (getStatusActions (prop t "status")).

End TaskCard.

(** * Properties *)

(** ** The status board *)

Section Board.
Import Dashboard.

(** The four statuses the board has a column for. *)
Definition recognized (t : object) : bool :=
  has_status "todo" t || has_status "in_progress" t
  || has_status "completed" t || has_status "handoff" t.

Lemma has_status_iff (s : string) (t : object) :
  has_status s t = true <-> prop t "status" = VStr s.
Proof.
  unfold has_status. split.
  - destruct (prop t "status"); simpl; try discriminate.
    intros H. apply String.eqb_eq in H. now subst.
  - intros ->. simpl. apply String.eqb_refl.
Qed.

Lemma in_bucket (s : string) (tasks : list object) (t : object) :
  In t (List.filter (has_status s) tasks) <-> In t tasks /\ prop t "status" = VStr s.
Proof. rewrite filter_In, has_status_iff. reflexivity. Qed.

(** Two different statuses never hold of one task. *)
Lemma has_status_excl (s s' : string) (t : object) :
  s <> s' -> has_status s t = true -> has_status s' t = false.
Proof.
  intros Hne H. apply has_status_iff in H.
  destruct (has_status s' t) eqn:E; [|reflexivity].
  apply has_status_iff in E. congruence.
Qed.

(** Filtering by the four statuses in turn sorts the recognized tasks by
    column: every one of them lands in one column, as often as it occurs. *)
Lemma buckets_permutation (tasks : list object) :
  Permutation
    (List.filter (has_status "todo") tasks ++ List.filter (has_status "in_progress") tasks
     ++ List.filter (has_status "completed") tasks ++ List.filter (has_status "handoff") tasks)
    (List.filter recognized tasks).
Proof.
  induction tasks as [|t tasks IH]; [constructor|].
  cbn [List.filter]. unfold recognized at 1.
  destruct (has_status "todo" t) eqn:E1.
  { rewrite (has_status_excl "todo" "in_progress"), (has_status_excl "todo" "completed"),
      (has_status_excl "todo" "handoff") by (assumption || discriminate).
    cbn. now constructor. }
  destruct (has_status "in_progress" t) eqn:E2.
  { rewrite (has_status_excl "in_progress" "completed"),
      (has_status_excl "in_progress" "handoff") by (assumption || discriminate).
    cbn [orb]. apply Permutation_sym, Permutation_cons_app, Permutation_sym, IH. }
  destruct (has_status "completed" t) eqn:E3.
  { rewrite (has_status_excl "completed" "handoff") by (assumption || discriminate).
    cbn [orb]. rewrite app_assoc. cbn [app].
    apply Permutation_sym, Permutation_cons_app, Permutation_sym.
    rewrite <- app_assoc. exact IH. }
  destruct (has_status "handoff" t) eqn:E4; cbn [orb].
  - rewrite 2!app_assoc.
    apply Permutation_sym, Permutation_cons_app, Permutation_sym.
    rewrite <- 2!app_assoc. exact IH.
  - exact IH.
Qed.

(** C2: the derived view has four buckets, one per status.  Each bucket
    holds exactly the tasks of the collection whose status is the bucket's
    key; a task whose status is none of [todo], [in_progress], [completed],
    [handoff] is in no bucket; and the four buckets together hold every
    task with a recognized status exactly as often as the collection does
    (so such a task is in the bucket of its status and in no other). *)
Theorem tasksByStatus_partition (tasks : list object) :
  let view := tasksByStatus tasks in
  (forall t, In t (todo view) <-> In t tasks /\ prop t "status" = VStr "todo") /\
  (forall t, In t (in_progress view) <->
             In t tasks /\ prop t "status" = VStr "in_progress") /\
  (forall t, In t (completed view) <->
             In t tasks /\ prop t "status" = VStr "completed") /\
  (forall t, In t (handoff view) <-> In t tasks /\ prop t "status" = VStr "handoff") /\
  (forall t, prop t "status" <> VStr "todo" ->
             prop t "status" <> VStr "in_progress" ->
             prop t "status" <> VStr "completed" ->
             prop t "status" <> VStr "handoff" ->
             ~ In t (todo view ++ in_progress view ++ completed view ++ handoff view)) /\
  Permutation (todo view ++ in_progress view ++ completed view ++ handoff view)
              (List.filter recognized tasks).
Proof.
  cbn zeta. unfold tasksByStatus. cbn [todo in_progress completed handoff].
  repeat apply conj; try (intros t; apply in_bucket).
  - intros t H1 H2 H3 H4 Hin.
    rewrite !in_app_iff, !in_bucket in Hin. tauto.
  - apply buckets_permutation.
Qed.

(** A task is in one bucket only. *)
Corollary bucket_unique (tasks : list object) (t : object) (s s' : string) :
  In t (List.filter (has_status s) tasks) ->
  In t (List.filter (has_status s') tasks) -> s = s'.
Proof. rewrite !in_bucket. intros [_ H] [_ H']. congruence. Qed.

(** A board with a task of an unknown status and one without any. *)
Example board_sample :
  let t1 := [("id", VNum "1"); ("title", VStr "Check vitals"); ("status", VStr "todo")] in
  let t2 := [("id", VNum "2"); ("status", VStr "in_progress")] in
  let t3 := [("id", VNum "3"); ("status", VStr "archived")] in
  let t4 := [("id", VNum "4")] in
  let t5 := [("id", VNum "5"); ("status", VStr "todo")] in
  tasksByStatus [t1; t2; t3; t4; t5]
  = {| todo := [t1; t5]; in_progress := [t2]; completed := []; handoff := [] |}.
Proof. reflexivity. Qed.

End Board.

(** ** The transitions a card offers *)

(** C3: the transitions offered on a card are exactly: from [todo] only
    [in_progress]; from [in_progress] only [completed] and [handoff]; from
    [handoff] only [completed]; from [completed], and from any status that
    is none of these, none. *)
Theorem getStatusActions_policy :
  map TaskCard.status (TaskCard.getStatusActions (VStr "todo")) = ["in_progress"] /\
  map TaskCard.status (TaskCard.getStatusActions (VStr "in_progress"))
    = ["completed"; "handoff"] /\
  map TaskCard.status (TaskCard.getStatusActions (VStr "handoff")) = ["completed"] /\
  TaskCard.getStatusActions (VStr "completed") = [] /\
  (forall currentStatus,
      currentStatus <> VStr "todo" ->
      currentStatus <> VStr "in_progress" ->
      currentStatus <> VStr "handoff" ->
      TaskCard.getStatusActions currentStatus = []).
Proof.
  repeat split.
  intros s H1 H2 H3. unfold TaskCard.getStatusActions.
  assert (E : forall x, s <> VStr x -> strict_eq s (VStr x) = false).
  { intros x Hx. destruct s; simpl; try reflexivity.
    apply String.eqb_neq. congruence. }
  now rewrite !E.
Qed.

(** The card of a [completed] task has no button. *)
Lemma getStatusActions_policy_witness :
  TaskCard.getStatusActions (VStr "completed") = [] /\
  TaskCard.getStatusActions (VNum "7") = [].
Proof.
  split.
  - apply (proj2 (proj2 (proj2 (proj2 getStatusActions_policy)))); discriminate.
  - apply (proj2 (proj2 (proj2 (proj2 getStatusActions_policy)))); discriminate.
Defined.

(** ** The task board's handlers *)

(** The notification [addNotification] leaves in world [w]. *)
Definition notice (w : world) (message : value) (type : string) : Notification.t :=
  Notification.mk (now w) message type.

(** C5: when [POST /tasks] answers 2xx with a task, [createTask] puts that
    task in front of the collection, the tasks already there following in
    their order; it enqueues the success notification and closes the create
    modal. *)
Theorem createTask_success (taskData : value) (newTask : object) (w : world) :
  let out := Dashboard.createTask taskData (Answer (Ok2xx (Parsed newTask))) w in
  fst out = Return tt /\
  Dash.tasks (dash (snd out)) = newTask :: Dash.tasks (dash w) /\
  notifications (snd out)
    = notifications w ++ [notice w (VStr "Task created successfully!") "success"] /\
  Dash.showCreateTask (dash (snd out)) = false.
Proof. repeat split. Qed.

(** The scenario of the spec: a created task the server files under [todo]
    heads the [todo] column. *)
Corollary createTask_heads_todo (taskData : value) (newTask : object) (w : world) :
  prop newTask "status" = VStr "todo" ->
  let out := Dashboard.createTask taskData (Answer (Ok2xx (Parsed newTask))) w in
  Dashboard.todo (Dashboard.tasksByStatus (Dash.tasks (dash (snd out))))
    = newTask :: Dashboard.todo (Dashboard.tasksByStatus (Dash.tasks (dash w))).
Proof.
  intros H. cbn. unfold Dashboard.has_status at 1. rewrite H. reflexivity.
Qed.

(** What [prev.map(t => t.id === taskId ? updatedTask : t)] does to the
    collection. *)
Definition replace_task (taskId : value) (updatedTask : object) (prev : list object)
  : list object :=
  map (fun t => if strict_eq (prop t "id") taskId then updatedTask else t) prev.

Lemma updateTaskStatus_tasks (taskId status : value) (updatedTask : object) (w : world) :
  Dash.tasks (dash (snd (Dashboard.updateTaskStatus taskId status
                           (Answer (Ok2xx (Parsed updatedTask))) w)))
  = replace_task taskId updatedTask (Dash.tasks (dash w)).
Proof. reflexivity. Qed.

Lemma replace_task_lookup (taskId : value) (updatedTask : object)
    (prev : list object) (i : nat) (t : object) :
  prev !! i = Some t ->
  strict_eq (prop t "id") taskId = false ->
  replace_task taskId updatedTask prev !! i = Some t.
Proof.
  intros Hi Hne. unfold replace_task.
  rewrite list_lookup_fmap, Hi. simpl. now rewrite Hne.
Qed.

Lemma replace_task_absent (taskId : value) (updatedTask : object) (prev : list object) :
  (forall t, In t prev -> strict_eq (prop t "id") taskId = false) ->
  replace_task taskId updatedTask prev = prev.
Proof.
  induction prev as [|t prev IH]; intros H; [reflexivity|].
  cbn. rewrite (H t) by now left.
  f_equal. apply IH. intros t' Ht'. apply H. now right.
Qed.

(** C10: after a successful [updateTaskStatus], the collection has the
    length it had and every task whose id is not [===] the given [taskId]
    sits unchanged at the index it had; when no task has that id the whole
    collection is unchanged.  The success notification is enqueued either
    way. *)
Theorem updateTaskStatus_frame (taskId status : value) (updatedTask : object) (w : world) :
  let out := Dashboard.updateTaskStatus taskId status
               (Answer (Ok2xx (Parsed updatedTask))) w in
  let before := Dash.tasks (dash w) in
  let after := Dash.tasks (dash (snd out)) in
  length after = length before /\
  (forall (i : nat) (t : object),
      before !! i = Some t ->
      strict_eq (prop t "id") taskId = false ->
      after !! i = Some t) /\
  ((forall t, In t before -> strict_eq (prop t "id") taskId = false) ->
   after = before) /\
  notifications (snd out)
    = notifications w ++ [notice w (VStr "Task updated successfully!") "success"].
Proof.
  cbn zeta. rewrite updateTaskStatus_tasks. repeat apply conj.
  - unfold replace_task. apply length_map.
  - intros i t. apply replace_task_lookup.
  - apply replace_task_absent.
  - reflexivity.
Qed.

(** X25: the matching entry is the one replaced (the move of the spec's
    scenario): after a successful [updateTaskStatus], every index that held
    a task whose id is [===] the given [taskId] holds the task the server
    answered, all of them when several entries share the id. *)
Lemma updateTaskStatus_replaces (taskId status : value) (updatedTask : object)
    (w : world) (i : nat) (t : object) :
  Dash.tasks (dash w) !! i = Some t ->
  strict_eq (prop t "id") taskId = true ->
  Dash.tasks (dash (snd (Dashboard.updateTaskStatus taskId status
                           (Answer (Ok2xx (Parsed updatedTask))) w))) !! i
  = Some updatedTask.
Proof.
  intros Hi He. rewrite updateTaskStatus_tasks. unfold replace_task.
  rewrite list_lookup_fmap, Hi. simpl. now rewrite He.
Qed.

(** ** Failures on the board *)

(** The [error] field of a response body: [error.error] where the read does
    not throw. *)
Definition error_field (body : parsed value) : value :=
  match body with
  | Parsed (VObj _ o) => prop o "error"
  | _ => VUndefined
  end.

(** The message of a failure notification: the body's [error] field when it
    is truthy, the handler's default otherwise. *)
Definition failure_message (default : string) (body : parsed value) : value :=
  if truthy (error_field body) then error_field body else VStr default.

(** A handler reported a failure and did nothing else to the page: the task
    board, the session, the storage and the console are as they were, one
    error notification was added. *)
Definition reported (w w' : world) (message : value) : Prop :=
  dash w' = dash w /\
  notifications w' = notifications w ++ [notice w message "error"] /\
  auth w' = auth w /\ localStorage w' = localStorage w /\ console w' = console w.

(** One engine's words for a property read on [null] or [undefined], for
    the sample pages below. *)
Definition sample_wording (what k : string) : string :=
  "Cannot read properties of " +:+ what +:+ " (reading '" +:+ k +:+ "')".

(** The page as it is first rendered, at some time [t]. *)
Definition boot (t : Z) : world :=
  {| localStorage := ∅; now := t; timers := []; requests := []; console := [];
     auth := Auth.init; notifications := []; dash := Dash.init;
     registerLoading := false; null_read_message := sample_wording |}.

(** The message the spec words: the server's [error] field when the body has
    one, a fixed default otherwise. *)
Fixpoint own (o : object) (k : string) : option value :=
  match o with
  | [] => None
  | (k', v) :: rest => if String.eqb k' k then Some v else own rest k
  end.

Definition stated_message (default : string) (body : parsed value) : value :=
  match body with
  | Parsed (VObj _ o) =>
      match own o "error" with
      | Some v => v
      | None => VStr default
      end
  | _ => VStr default
  end.

(** Case analysis on a response body, down to the truth value of its
    [error] field. *)
Ltac by_body body :=
  destruct body as [?|[]];
  unfold reported, failure_message, error_field; cbn; unfold or_else;
  try destruct (truthy _); repeat split.

(** C4, as amended: on a network error or a non-2xx response, [createTask]
    and [updateTaskStatus] leave the task collection (and the rest of the
    board, the session and the storage) exactly as they were and enqueue one
    error notification.  Its message is the [error] field of the response
    body when the body parses and that field is truthy, and the handler's
    fixed default otherwise: on a network error, on a body that does not
    parse or has no [error] field, and on an [error] field that is empty,
    [0], [false] or [null]. *)
Theorem board_failure_reported (taskData taskId status : value) (w : world) :
  (forall why,
      reported w (snd (Dashboard.createTask taskData (Unreachable why) w))
        (VStr "Failed to create task")) /\
  (forall body,
      reported w (snd (Dashboard.createTask taskData (Answer (NotOk body)) w))
        (failure_message "Failed to create task" body)) /\
  (forall why,
      reported w (snd (Dashboard.updateTaskStatus taskId status (Unreachable why) w))
        (VStr "Failed to update task")) /\
  (forall body,
      reported w (snd (Dashboard.updateTaskStatus taskId status (Answer (NotOk body)) w))
        (failure_message "Failed to update task" body)).
Proof.
  repeat apply conj.
  - intros why. repeat split.
  - intros body. by_body body.
  - intros why. repeat split.
  - intros body. by_body body.
Qed.

(** Where the server's message is a non-empty string, that string is the
    message shown. *)
Lemma failure_message_string (default s : string) (r : loc) (o : object) :
  prop o "error" = VStr s -> s <> EmptyString ->
  failure_message default (Parsed (VObj r o)) = VStr s.
Proof.
  intros H Hs. unfold failure_message, error_field. rewrite H. simpl.
  destruct (String.eqb_spec s EmptyString) as [->|_]; [contradiction|reflexivity].
Qed.

(** Where the body has no [error] field, the default is. *)
Lemma failure_message_missing (default : string) (r : loc) (o : object) :
  own o "error" = None ->
  failure_message default (Parsed (VObj r o)) = VStr default.
Proof.
  intros H. unfold failure_message, error_field.
  assert (E : prop o "error" = VUndefined).
  { induction o as [|[k v] o IH]; [reflexivity|].
    simpl in *. destruct (String.eqb k "error"); [discriminate|auto]. }
  now rewrite E.
Qed.

(** C4 as worded fails where the body has an [error] field that is falsy:
    answered [400] with an [error] that is the empty string, [createTask]
    shows its default, not the field. *)
Lemma createTask_empty_error_field :
  let body := Parsed (VObj 1%N [("error", VStr EmptyString)]) in
  let w' := snd (Dashboard.createTask (VObj literal [("title", VStr "Check vitals")])
                   (Answer (NotOk body)) (boot 0)) in
  stated_message "Failed to create task" body = VStr EmptyString /\
  map Notification.message (notifications w') = [VStr "Failed to create task"] /\
  VStr "Failed to create task" <> VStr EmptyString.
Proof. repeat split. discriminate. Qed.

(** A load that changed nothing the user can see but the spinner: the
    collection, the modal flag, the notifications and their timers, the
    session, the storage and the forms are as they were, and [loading] is
    off. *)
Definition silent (w w' : world) : Prop :=
  Dash.tasks (dash w') = Dash.tasks (dash w) /\
  Dash.showCreateTask (dash w') = Dash.showCreateTask (dash w) /\
  Dash.loading (dash w') = false /\
  notifications w' = notifications w /\
  timers w' = timers w /\
  auth w' = auth w /\
  localStorage w' = localStorage w /\
  registerLoading w' = registerLoading w.

(** C8: a [loadTasks] that fails, by a network error or by a non-2xx
    response, returns normally, keeps the previous collection, produces no
    notification and clears the loading flag.  The network error is logged
    to the console; the non-2xx response is not even that. *)
Theorem loadTasks_failure_silent (w : world) :
  (forall why,
      let out := Dashboard.loadTasks (Unreachable why) w in
      fst out = Return tt /\ silent w (snd out) /\
      console (snd out) = console w ++ [TypeError why]) /\
  (forall body,
      let out := Dashboard.loadTasks (Answer (NotOk body)) w in
      fst out = Return tt /\ silent w (snd out) /\
      console (snd out) = console w).
Proof.
  split; intros x; cbn zeta; unfold silent; cbn; repeat split.
Qed.

(** A 2xx answer whose body does not parse goes the same way. *)
Lemma loadTasks_garbled_silent (w : world) (why : string) :
  let out := Dashboard.loadTasks (Answer (Ok2xx (Garbled why))) w in
  fst out = Return tt /\ silent w (snd out) /\
  console (snd out) = console w ++ [SyntaxError why].
Proof. cbn zeta; unfold silent; cbn; repeat split. Qed.

(** On success the collection is replaced wholesale. *)
Lemma loadTasks_success (w : world) (listed : list object) :
  Dash.tasks (dash (snd (Dashboard.loadTasks
     (Answer (Ok2xx (Parsed {| Dashboard.tasks := Some listed |}))) w))) = listed.
Proof. reflexivity. Qed.

(** ** Registration form *)

(** C9: a registration whose four fields are filled in and whose password
    has a [.length] below 8 (in UTF-16 code units, as the page counts) is
    stopped before [register] is called: no
    request is sent, nothing is stored, the form does not enter its loading
    state, and the one thing that happens is the error notification
    "Password must be at least 8 characters". *)
Theorem register_short_password (JSON_stringify : value -> string)
    (d : RegisterForm.formData) (r : reply object) (w : world) :
  RegisterForm.organizationName d <> EmptyString ->
  RegisterForm.adminName d <> EmptyString ->
  RegisterForm.adminEmail d <> EmptyString ->
  RegisterForm.adminPassword d <> EmptyString ->
  (js_length (RegisterForm.adminPassword d) < 8)%nat ->
  let out := RegisterForm.handleSubmit JSON_stringify d r w in
  fst out = Return tt /\
  requests (snd out) = requests w /\
  notifications (snd out)
    = notifications w ++ [notice w (VStr "Password must be at least 8 characters") "error"] /\
  localStorage (snd out) = localStorage w /\
  auth (snd out) = auth w /\
  registerLoading (snd out) = registerLoading w.
Proof.
  intros H1 H2 H3 H4 Hlen. cbn zeta. unfold RegisterForm.handleSubmit.
  assert (B : forall s, s <> EmptyString -> RegisterForm.blank s = false).
  { intros s Hs. unfold RegisterForm.blank. simpl.
    destruct (String.eqb_spec s EmptyString); [contradiction|reflexivity]. }
  rewrite !B by assumption. cbn [orb].
  apply Nat.ltb_lt in Hlen. rewrite Hlen.
  repeat split.
Qed.

(** The scenario of the spec: a password of 7 characters. *)
Lemma register_short_password_witness :
  let d := {| RegisterForm.organizationName := "Metro General Hospital";
              RegisterForm.adminName := "Ada";
              RegisterForm.adminEmail := "ada@metro.example";
              RegisterForm.adminPassword := "1234567" |} in
  let out := RegisterForm.handleSubmit (fun _ => "{}") d (Unreachable "offline") (boot 0) in
  requests (snd out) = [] /\
  map Notification.message (notifications (snd out))
    = [VStr "Password must be at least 8 characters"].
Proof.
  cbn zeta.
  destruct (register_short_password (fun _ => "{}")
              {| RegisterForm.organizationName := "Metro General Hospital";
                 RegisterForm.adminName := "Ada";
                 RegisterForm.adminEmail := "ada@metro.example";
                 RegisterForm.adminPassword := "1234567" |}
              (Unreachable "offline") (boot 0))
    as (_ & Hreq & Hnot & _); try discriminate.
  - simpl. lia.
  - split; [exact Hreq | rewrite Hnot; reflexivity].
Defined.

(** With a password of 8 characters the same form does call the server. *)
Example register_long_password_sends :
  let d := {| RegisterForm.organizationName := "Metro General Hospital";
              RegisterForm.adminName := "Ada";
              RegisterForm.adminEmail := "ada@metro.example";
              RegisterForm.adminPassword := "12345678" |} in
  let out := RegisterForm.handleSubmit (fun _ => "{}") d (Unreachable "offline") (boot 0) in
  map url (requests (snd out)) = [API_BASE +:+ "/auth/register-organization"] /\
  map Notification.message (notifications (snd out)) = [VStr "offline"].
Proof. split; reflexivity. Qed.

(** ** Session store *)

(** Runs a handler symbolically: the monad's combinators and the browser
    services are unfolded and the state they thread is simplified. *)
Ltac run_js :=
  unfold try_finally, try_catch, bind, fetch, json, get, update, read, ret, throw,
    getItem, setItem, removeItem, console_error, setTimeout,
    AuthProvider.parse, AuthProvider.setUser, AuthProvider.setToken,
    AuthProvider.setLoading;
  cbn.

Section Session.
Variable JSON_stringify : value -> string.
Variable JSON_parse : string -> parsed value.

#[local] Abbreviation login := (AuthProvider.login JSON_stringify).
#[local] Abbreviation register := (AuthProvider.register JSON_stringify).
#[local] Abbreviation mount := (AuthProvider.mount JSON_parse).

(** An entry of [localStorage] is there. *)
Definition persisted (w : world) (k : string) : Prop :=
  is_Some (localStorage w !! k).

(** What [login] and [register] leave in storage on success. *)
Definition stored (data : object) (m : gmap string string) : gmap string string :=
  <[user_key := to_string (AuthProvider.stringify JSON_stringify (prop data "user"))]>
    (<[token_key := to_string (prop data "token")]> m).

Lemma login_success_storage (email password : string) (data : object) (w : world) :
  localStorage (snd (login email password (Answer (Ok2xx (Parsed data))) w))
  = stored data (localStorage w).
Proof. reflexivity. Qed.

Lemma register_success_storage (d : value) (data : object) (w : world) :
  localStorage (snd (register d (Answer (Ok2xx (Parsed data))) w))
  = stored data (localStorage w).
Proof. reflexivity. Qed.

Lemma logout_storage (w : world) :
  localStorage (snd (AuthProvider.logout w))
  = delete user_key (delete token_key (localStorage w)).
Proof. reflexivity. Qed.

Lemma stored_both (data : object) (m : gmap string string) :
  is_Some (stored data m !! token_key) /\ is_Some (stored data m !! user_key).
Proof.
  unfold stored. split.
  - rewrite lookup_insert_ne by discriminate. rewrite lookup_insert_eq. eauto.
  - rewrite lookup_insert_eq. eauto.
Qed.

Lemma cleared_neither (m : gmap string string) :
  delete user_key (delete token_key m) !! token_key = None /\
  delete user_key (delete token_key m) !! user_key = None.
Proof.
  split.
  - rewrite lookup_delete_ne by discriminate. apply lookup_delete_eq.
  - apply lookup_delete_eq.
Qed.

(** The probe of the mount effect fails: the request is rejected, or the
    response is not 2xx. *)
Definition probe_failed (r : reply value) : Prop :=
  match r with
  | Unreachable _ => True
  | Answer (NotOk _) => True
  | Answer (Ok2xx _) => False
  end.

Lemma truthy_saved (tok : string) :
  tok <> EmptyString -> truthy (VStr tok) = true.
Proof.
  intros H. simpl. destruct (String.eqb_spec tok EmptyString); [contradiction|reflexivity].
Qed.

Lemma mount_probe_failure (r : reply value) (w : world) (tok : string) :
  localStorage w !! token_key = Some tok -> tok <> EmptyString ->
  probe_failed r ->
  localStorage (snd (mount r w)) = delete user_key (delete token_key (localStorage w))
  /\ Auth.token (auth (snd (mount r w))) = VNull
  /\ Auth.loading (auth (snd (mount r w))) = false.
Proof.
  intros Htok Hne Hr.
  remember (mount r w) as out eqn:E.
  unfold AuthProvider.mount, bind at 1, getItem, read in E.
  rewrite Htok, (truthy_saved tok Hne) in E.
  destruct r as [why|[body|body]]; [| destruct Hr |]; subst out; repeat split.
Qed.

(** C1: the token and the serialized user are written together or removed
    together.  A successful [login] or [register] leaves both entries in
    storage; [logout] leaves neither; a startup probe that fails (a token was
    saved, and [GET /users] was rejected or answered non-2xx) leaves neither.
    This holds whatever the storage held before, so none of the four leaves
    exactly one entry. *)
Theorem session_entries_together (w : world) :
  (forall email password data,
      let w' := snd (login email password (Answer (Ok2xx (Parsed data))) w) in
      persisted w' token_key /\ persisted w' user_key) /\
  (forall organizationData data,
      let w' := snd (register organizationData (Answer (Ok2xx (Parsed data))) w) in
      persisted w' token_key /\ persisted w' user_key) /\
  (let w' := snd (AuthProvider.logout w) in
   ~ persisted w' token_key /\ ~ persisted w' user_key) /\
  (forall r tok,
      localStorage w !! token_key = Some tok -> tok <> EmptyString ->
      probe_failed r ->
      let w' := snd (mount r w) in
      ~ persisted w' token_key /\ ~ persisted w' user_key).
Proof.
  unfold persisted. split; [|split; [|split]].
  - intros email password data. cbn zeta.
    rewrite login_success_storage. apply stored_both.
  - intros d data. cbn zeta.
    rewrite register_success_storage. apply stored_both.
  - cbn zeta. rewrite logout_storage.
    destruct (cleared_neither (localStorage w)) as [-> ->].
    split; apply is_Some_None.
  - intros r tok Htok Hne Hr. cbn zeta.
    destruct (mount_probe_failure r w tok Htok Hne Hr) as (-> & _).
    destruct (cleared_neither (localStorage w)) as [-> ->].
    split; apply is_Some_None.
Qed.

(** *** The same, along any run of the store *)

Inductive session_op : Type :=
| Login (email password : string) (r : reply object)
| Register (organizationData : value) (r : reply object)
| Logout
| Mount (r : reply value).

Definition perform (op : session_op) (w : world) : world :=
  match op with
  | Login email password r => snd (login email password r w)
  | Register organizationData r => snd (register organizationData r w)
  | Logout => snd (AuthProvider.logout w)
  | Mount r => snd (mount r w)
  end.

(** Both entries or neither. *)
Definition together (m : gmap string string) : Prop :=
  is_Some (m !! token_key) <-> is_Some (m !! user_key).

(** Every operation, however the server answers, leaves the storage as it
    was, or with both entries written, or with both removed. *)
Lemma perform_storage (op : session_op) (w : world) :
  localStorage (perform op w) = localStorage w
  \/ (exists data, localStorage (perform op w) = stored data (localStorage w))
  \/ localStorage (perform op w) = delete user_key (delete token_key (localStorage w)).
Proof.
  destruct op as [email password r|d r| |r]; simpl.
  - destruct r as [why|[[why|data]|[why|[]]]];
      try (left; reflexivity). right; left; exists data; reflexivity.
  - destruct r as [why|[[why|data]|[why|[]]]];
      try (left; reflexivity). right; left; exists data; reflexivity.
  - right; right; reflexivity.
  - remember (mount r w) as out eqn:E.
    unfold AuthProvider.mount, bind at 1, getItem, read in E.
    destruct (localStorage w !! token_key) as [tok|] eqn:Htok.
    2: { subst out; left; reflexivity. }
    revert E. destruct (truthy (VStr tok)); intros E.
    2: { subst out; left; reflexivity. }
    destruct r as [why|[body|body]];
      try (subst out; right; right; reflexivity).
    subst out. run_js.
    destruct (JSON_parse _); [right; right|left]; reflexivity.
Qed.

Lemma perform_together (op : session_op) (w : world) :
  together (localStorage w) -> together (localStorage (perform op w)).
Proof.
  intros Hw. destruct (perform_storage op w) as [->|[[data ->]| ->]].
  - exact Hw.
  - destruct (stored_both data (localStorage w)). unfold together. tauto.
  - destruct (cleared_neither (localStorage w)) as [E1 E2].
    unfold together. rewrite E1, E2. tauto.
Qed.

(** From a storage that holds both entries or neither, no run of the store
    reaches one that holds exactly one. *)
Lemma run_together (ops : list session_op) (w : world) :
  together (localStorage w) ->
  together (localStorage (fold_left (fun w op => perform op w) ops w)).
Proof.
  revert w. induction ops as [|op ops IH]; intros w Hw; [exact Hw|].
  simpl. apply IH, perform_together, Hw.
Qed.

(** *** Login failures *)



End Session.



(** The same with a body that is JSON [null]. *)
Example login_null_body :
  fst (AuthProvider.login (fun _ => "{}") "ada@metro.example" "secret"
         (Answer (NotOk (Parsed VNull))) (boot 0))
  = Throw (TypeError (sample_wording "null" "error")).
Proof. reflexivity. Qed.

(** ** Notification queue *)

(** What happens to the queue over time: a handler enqueues, the user
    dismisses, or time passes. *)
Inductive event : Type :=
| Enqueue (message : value) (type : string)
| Dismiss (id : Z)
| Wait (ms : N).

Definition step (e : event) (w : world) : world :=
  match e with
  | Enqueue message type => snd (NotificationProvider.addNotification message type w)
  | Dismiss id => snd (NotificationProvider.removeNotification id w)
  | Wait ms => elapse ms w
  end.

Definition run (es : list event) (w : world) : world :=
  fold_left (fun w e => step e w) es w.

(** The time that passes over a run. *)
Fixpoint elapsed (es : list event) : Z :=
  match es with
  | [] => 0
  | Wait ms :: rest => Z.of_N ms + elapsed rest
  | _ :: rest => elapsed rest
  end.

Definition is_enqueue (e : event) : Prop :=
  match e with Enqueue _ _ => True | _ => False end.

Definition dismisses (id : Z) (e : event) : Prop :=
  match e with Dismiss id' => id' = id | _ => False end.

(** Every pending timer was set for 5000 ms after the time that is its
    notification's id, that time is not in the future, and the timer is not
    overdue. *)
Definition timers_ok (w : world) : Prop :=
  Forall (fun tm => due tm = target tm + 5000 /\ target tm <= now w /\ now w < due tm)
         (timers w).

(** Every notification on display has a timer pending for its id. *)
Definition covered (w : world) : Prop :=
  Forall (fun n => Exists (fun tm => target tm = Notification.id n) (timers w))
         (notifications w).

Section Lifetime.

Lemma step_enqueue (message : value) (type : string) (w : world) :
  notifications (step (Enqueue message type) w)
    = notifications w ++ [notice w message type] /\
  timers (step (Enqueue message type) w)
    = timers w ++ [{| due := now w + 5000; target := now w |}] /\
  now (step (Enqueue message type) w) = now w.
Proof. repeat split. Qed.

Lemma step_dismiss (id : Z) (w : world) :
  notifications (step (Dismiss id) w) = expire id (notifications w) /\
  timers (step (Dismiss id) w) = timers w /\
  now (step (Dismiss id) w) = now w.
Proof. repeat split. Qed.

Lemma step_wait (ms : N) (w : world) :
  let t := now w + Z.of_N ms in
  notifications (step (Wait ms) w)
    = fold_left (fun ns tm => expire (target tm) ns)
        (List.filter (fun tm => due tm <=? t) (timers w)) (notifications w) /\
  timers (step (Wait ms) w) = List.filter (fun tm => negb (due tm <=? t)) (timers w) /\
  now (step (Wait ms) w) = t.
Proof. repeat split. Qed.

Lemma now_run (es : list event) (w : world) :
  now (run es w) = now w + elapsed es.
Proof.
  revert w. induction es as [|[m ty|id|ms] es IH]; intros w; simpl.
  - lia.
  - unfold run in IH. rewrite IH. reflexivity.
  - unfold run in IH. rewrite IH. reflexivity.
  - unfold run in IH. rewrite IH. simpl. lia.
Qed.

Lemma elapsed_nonneg (es : list event) : 0 <= elapsed es.
Proof. induction es as [|[m ty|id|ms] es IH]; simpl; lia. Qed.

Lemma in_expire (id : Z) (ns : list Notification.t) (n : Notification.t) :
  In n (expire id ns) <-> In n ns /\ Notification.id n <> id.
Proof.
  unfold expire. rewrite filter_In, Bool.negb_true_iff, Z.eqb_neq. reflexivity.
Qed.

(** What is left once a batch of timers has fired. *)
Lemma in_fired (ready : list timer) (ns : list Notification.t) (n : Notification.t) :
  In n (fold_left (fun ns tm => expire (target tm) ns) ready ns)
  <-> In n ns /\ Forall (fun tm => target tm <> Notification.id n) ready.
Proof.
  revert ns. induction ready as [|tm ready IH]; intros ns; simpl.
  - split; [intros H; split; [exact H|constructor]|tauto].
  - rewrite IH, in_expire, Forall_cons. intuition congruence.
Qed.

(** The queue's invariant: [timers_ok] and [covered]. *)
Definition queue_ok (w : world) : Prop := timers_ok w /\ covered w.

Lemma queue_ok_start (w : world) :
  timers w = [] -> notifications w = [] -> queue_ok w.
Proof.
  intros Ht Hn. unfold queue_ok, timers_ok, covered. rewrite Ht, Hn.
  split; constructor.
Qed.

Lemma queue_ok_enqueue (message : value) (type : string) (w : world) :
  queue_ok w -> queue_ok (step (Enqueue message type) w).
Proof.
  intros [Ht Hc]. destruct (step_enqueue message type w) as (En & Et & Ew).
  unfold queue_ok, timers_ok, covered. rewrite En, Et, Ew. split.
  - apply List.Forall_app. split; [exact Ht|].
    constructor; [simpl; lia|constructor].
  - apply List.Forall_app. split.
    + eapply List.Forall_impl; [|exact Hc]. intros n Hn.
      apply List.Exists_app. now left.
    + constructor; [|constructor].
      apply List.Exists_app. right. now constructor.
Qed.

Lemma queue_ok_dismiss (id : Z) (w : world) :
  queue_ok w -> queue_ok (step (Dismiss id) w).
Proof.
  intros [Ht Hc]. destruct (step_dismiss id w) as (En & Et & Ew).
  unfold queue_ok, timers_ok, covered. rewrite En, Et, Ew. split; [exact Ht|].
  apply List.Forall_forall. intros n Hn. apply in_expire in Hn as [Hn _].
  revert n Hn. apply List.Forall_forall. exact Hc.
Qed.

Lemma queue_ok_wait (ms : N) (w : world) :
  queue_ok w -> queue_ok (step (Wait ms) w).
Proof.
  intros [Ht Hc]. destruct (step_wait ms w) as (En & Et & Ew).
  unfold queue_ok, timers_ok, covered. rewrite En, Et, Ew. split.
  - apply List.Forall_forall. intros tm Htm.
    apply filter_In in Htm as [Htm Hlate].
    apply Bool.negb_true_iff, Z.leb_gt in Hlate.
    pose proof (proj1 (List.Forall_forall _ _) Ht tm Htm) as (Hd & Hle & _).
    repeat split; lia.
  - apply List.Forall_forall. intros n Hn.
    apply in_fired in Hn as [Hn Hready].
    pose proof (proj1 (List.Forall_forall _ _) Hc n Hn) as Hex.
    apply List.Exists_exists in Hex as (tm & Htm & Htarget).
    apply List.Exists_exists. exists tm. split; [|exact Htarget].
    apply filter_In. split; [exact Htm|].
    destruct (due tm <=? now w + Z.of_N ms) eqn:Hdue; [|reflexivity].
    exfalso.
    apply (proj1 (List.Forall_forall _ _) Hready tm); [|exact Htarget].
    apply filter_In. now split.
Qed.

Lemma queue_ok_step (e : event) (w : world) : queue_ok w -> queue_ok (step e w).
Proof.
  destruct e; [apply queue_ok_enqueue|apply queue_ok_dismiss|apply queue_ok_wait].
Qed.

Lemma queue_ok_run (es : list event) (w : world) : queue_ok w -> queue_ok (run es w).
Proof.
  revert w. induction es as [|e es IH]; intros w Hw; [exact Hw|].
  apply IH, queue_ok_step, Hw.
Qed.

(** *** Still there before its five seconds are over *)

Lemma stays (es : list event) (w : world) (n : Notification.t) :
  queue_ok w ->
  In n (notifications w) ->
  Forall (fun e => ~ dismisses (Notification.id n) e) es ->
  now w + elapsed es < Notification.id n + 5000 ->
  In n (notifications (run es w)).
Proof.
  revert w. induction es as [|e es IH]; intros w Hok Hin Hnd Hearly; [exact Hin|].
  apply List.Forall_cons_iff in Hnd as [He Hnd].
  pose proof (elapsed_nonneg es) as Hpos.
  change (run (e :: es) w) with (run es (step e w)).
  apply IH; [apply queue_ok_step, Hok| |exact Hnd|].
  - destruct e as [m ty|id|ms].
    + destruct (step_enqueue m ty w) as (-> & _). apply in_app_iff. now left.
    + destruct (step_dismiss id w) as (-> & _). apply in_expire. split; [exact Hin|].
      intros E. apply He. simpl. congruence.
    + destruct (step_wait ms w) as (-> & _). apply in_fired. split; [exact Hin|].
      apply List.Forall_forall. intros tm Htm.
      apply filter_In in Htm as [Htm Hdue]. apply Z.leb_le in Hdue.
      destruct Hok as [Ht _].
      pose proof (proj1 (List.Forall_forall _ _) Ht tm Htm) as (Hd & _).
      simpl in Hearly. lia.
  - destruct e as [m ty|id|ms]; simpl in Hearly |- *; lia.
Qed.

(** *** Gone once they are *)

(** The removal of the notifications with id [t0] is pending, or has
    happened for good. *)
Definition spent (t0 : Z) (w : world) : Prop :=
  Exists (fun tm => target tm = t0) (timers w)
  \/ (Forall (fun n => Notification.id n <> t0) (notifications w) /\ t0 < now w).

Lemma spent_step (t0 : Z) (e : event) (w : world) :
  queue_ok w -> spent t0 w -> spent t0 (step e w).
Proof.
  intros [Ht Hc] Hs. unfold spent. destruct e as [m ty|id|ms].
  - destruct (step_enqueue m ty w) as (-> & -> & ->).
    destruct Hs as [Hs|[Hs Hlt]].
    + left. apply List.Exists_app. now left.
    + right. split; [|exact Hlt].
      apply List.Forall_app. split; [exact Hs|].
      constructor; [simpl; lia|constructor].
  - destruct (step_dismiss id w) as (-> & -> & ->).
    destruct Hs as [Hs|[Hs Hlt]]; [now left|right]. split; [|exact Hlt].
    apply List.Forall_forall. intros n Hn. apply in_expire in Hn as [Hn _].
    exact (proj1 (List.Forall_forall _ _) Hs n Hn).
  - destruct (step_wait ms w) as (-> & -> & ->).
    destruct Hs as [Hs|[Hs Hlt]].
    + apply List.Exists_exists in Hs as (tm & Htm & Htarget).
      destruct (due tm <=? now w + Z.of_N ms) eqn:Hdue.
      * right.
        pose proof (proj1 (List.Forall_forall _ _) Ht tm Htm) as (Hd & _).
        apply Z.leb_le in Hdue as Hle. split; [|lia].
        apply List.Forall_forall. intros n Hn. apply in_fired in Hn as [_ Hready].
        intros E. apply (proj1 (List.Forall_forall _ _) Hready tm); [|congruence].
        apply filter_In. now split.
      * left. apply List.Exists_exists. exists tm. split; [|exact Htarget].
        apply filter_In. split; [exact Htm|]. now rewrite Hdue.
    + right. split; [|lia].
      apply List.Forall_forall. intros n Hn. apply in_fired in Hn as [Hn _].
      exact (proj1 (List.Forall_forall _ _) Hs n Hn).
Qed.

Lemma spent_run (t0 : Z) (es : list event) (w : world) :
  queue_ok w -> spent t0 w -> spent t0 (run es w).
Proof.
  revert w. induction es as [|e es IH]; intros w Hok Hs; [exact Hs|].
  apply IH; [apply queue_ok_step, Hok|apply spent_step; assumption].
Qed.

Lemma gone (t0 : Z) (w : world) (n : Notification.t) :
  queue_ok w -> spent t0 w -> t0 + 5000 <= now w ->
  Notification.id n = t0 -> ~ In n (notifications w).
Proof.
  intros [Ht _] [Hs|[Hs _]] Hlate Hid Hin.
  - apply List.Exists_exists in Hs as (tm & Htm & Htarget).
    pose proof (proj1 (List.Forall_forall _ _) Ht tm Htm) as (Hd & _ & Hpending).
    lia.
  - exact (proj1 (List.Forall_forall _ _) Hs n Hin Hid).
Qed.

(** *** Empty five seconds after the last enqueue *)

Definition due_by (deadline : Z) (w : world) : Prop :=
  Forall (fun tm => due tm <= deadline) (timers w).

Lemma due_by_run (deadline : Z) (es : list event) (w : world) :
  Forall (fun e => ~ is_enqueue e) es -> due_by deadline w -> due_by deadline (run es w).
Proof.
  revert w. induction es as [|e es IH]; intros w Hne Hd; [exact Hd|].
  apply List.Forall_cons_iff in Hne as [He Hne].
  apply IH; [exact Hne|]. unfold due_by in *.
  destruct e as [m ty|id|ms].
  - destruct He. exact I.
  - exact Hd.
  - destruct (step_wait ms w) as (_ & -> & _).
    apply List.Forall_forall. intros tm Htm. apply filter_In in Htm as [Htm _].
    exact (proj1 (List.Forall_forall _ _) Hd tm Htm).
Qed.

Lemma drained (deadline : Z) (w : world) :
  queue_ok w -> due_by deadline w -> deadline <= now w -> notifications w = [].
Proof.
  intros [Ht Hc] Hd Hlate. unfold timers_ok, covered, due_by in *.
  destruct (timers w) as [|tm pending].
  - destruct (notifications w) as [|n ns]; [reflexivity|].
    apply List.Forall_cons_iff in Hc as [Hn _]. inversion Hn.
  - apply List.Forall_cons_iff in Ht as [(_ & _ & Hpending) _].
    apply List.Forall_cons_iff in Hd as [Hdue _]. lia.
Qed.

Lemma due_by_enqueue (message : value) (type : string) (w : world) :
  queue_ok w -> due_by (now w + 5000) (step (Enqueue message type) w).
Proof.
  intros [Ht _]. unfold due_by. destruct (step_enqueue message type w) as (_ & -> & _).
  apply List.Forall_app. split.
  - eapply List.Forall_impl; [|exact Ht]. intros tm (Hd & Hle & _). lia.
  - constructor; [simpl; lia|constructor].
Qed.

End Lifetime.

(** C6: [addNotification] appends the new notification at the end of the
    queue and sets a timer for 5000 ms later.  On any run of the page from
    its first render, time being what the clock of the event loop says and
    timers firing when they are due: unless it is dismissed by hand, the
    notification is on display for as long as less than 5000 ms have passed
    since it was enqueued and is gone from then on; and once 5000 ms have
    passed without a further enqueue the queue is empty. *)
Theorem notification_lifetime (w0 : world) (before after : list event)
    (message : value) (type : string) :
  timers w0 = [] -> notifications w0 = [] ->
  let w := run before w0 in
  let n := notice w message type in
  let w1 := step (Enqueue message type) w in
  notifications w1 = notifications w ++ [n] /\
  timers w1 = timers w ++ [{| due := now w + 5000; target := now w |}] /\
  (Forall (fun e => ~ dismisses (now w) e) after ->
   (In n (notifications (run after w1)) <-> elapsed after < 5000)) /\
  (Forall (fun e => ~ is_enqueue e) after ->
   5000 <= elapsed after ->
   notifications (run after w1) = []).
Proof.
  intros Ht0 Hn0 w n w1.
  assert (Hok : queue_ok w) by (apply queue_ok_run, queue_ok_start; assumption).
  assert (Hok1 : queue_ok w1) by (apply queue_ok_step, Hok).
  destruct (step_enqueue message type w) as (En & Et & Ew).
  fold w1 in En, Et, Ew. fold n in En.
  split; [exact En|]. split; [exact Et|]. split.
  - intros Hnd. split.
    + intros Hin. destruct (Z_lt_ge_dec (elapsed after) 5000) as [Hlt|Hge]; [exact Hlt|].
      exfalso. apply (gone (now w) (run after w1) n); trivial.
      * apply queue_ok_run, Hok1.
      * apply spent_run; [exact Hok1|]. left. rewrite Et.
        apply List.Exists_app. right. now constructor.
      * rewrite now_run, Ew. lia.
    + intros Hlt. apply stays; trivial.
      * rewrite En. apply in_app_iff. right. now left.
      * rewrite Ew. simpl. lia.
  - intros Hne Hge. apply (drained (now w + 5000)).
    + apply queue_ok_run, Hok1.
    + apply due_by_run; [exact Hne|]. apply due_by_enqueue, Hok.
    + rewrite now_run, Ew. lia.
Qed.

(** A notification enqueued 2 s after another: still there after 4.999 s,
    and the queue is empty after 5 s. *)
Lemma notification_lifetime_witness :
  let w := run [Enqueue (VStr "Login successful!") "success"; Wait 2000] (boot 1000) in
  let w1 := step (Enqueue (VStr "Task created successfully!") "success") w in
  In (notice w (VStr "Task created successfully!") "success")
     (notifications (run [Wait 4999] w1)) /\
  notifications (run [Wait 1000; Wait 4000] w1) = [].
Proof.
  cbn zeta. split.
  - apply (proj1 (proj2 (proj2
      (notification_lifetime (boot 1000)
         [Enqueue (VStr "Login successful!") "success"; Wait 2000] [Wait 4999]
         (VStr "Task created successfully!") "success" eq_refl eq_refl)))).
    + repeat constructor; simpl; tauto.
    + simpl. lia.
  - apply (proj2 (proj2 (proj2
      (notification_lifetime (boot 1000)
         [Enqueue (VStr "Login successful!") "success"; Wait 2000] [Wait 1000; Wait 4000]
         (VStr "Task created successfully!") "success" eq_refl eq_refl)))).
    + repeat constructor; simpl; tauto.
    + simpl. lia.
Defined.

(** The same run, computed: the first notification leaves at 6000, the
    second at 8000. *)
Example queue_trace :
  let w := run [Enqueue (VStr "Login successful!") "success"; Wait 2000;
                Enqueue (VStr "Task created successfully!") "success"] (boot 1000) in
  map Notification.id (notifications w) = [1000; 3000] /\
  map Notification.id (notifications (run [Wait 2999] w)) = [1000; 3000] /\
  map Notification.id (notifications (run [Wait 3000] w)) = [3000] /\
  map Notification.id (notifications (run [Wait 3000; Wait 1999] w)) = [3000] /\
  map Notification.id (notifications (run [Wait 3000; Wait 2000] w)) = [].
Proof. repeat split. Qed.

(** ** Scenarios *)

(** Moving a task from [in_progress] to [completed]: after the server's
    answer the task is in the [completed] column and no longer in the
    [in_progress] one, and its neighbours have not moved. *)
Example complete_task_scenario :
  let t1 := [("id", VNum "1"); ("status", VStr "todo")] in
  let t2 := [("id", VNum "2"); ("status", VStr "in_progress")] in
  let t3 := [("id", VNum "3"); ("status", VStr "in_progress")] in
  let t2' := [("id", VNum "2"); ("status", VStr "completed")] in
  let w := with_dash (fun _ => Dash.mk [t1; t2; t3] false false) (boot 0) in
  let w' := snd (Dashboard.updateTaskStatus (VNum "2") (VStr "completed")
                   (Answer (Ok2xx (Parsed t2'))) w) in
  Dash.tasks (dash w') = [t1; t2'; t3] /\
  Dashboard.tasksByStatus (Dash.tasks (dash w'))
  = {| Dashboard.todo := [t1]; Dashboard.in_progress := [t3];
       Dashboard.completed := [t2']; Dashboard.handoff := [] |}.
Proof. split; reflexivity. Qed.

(** Logging in, then out, on an empty storage. *)
Example login_logout_scenario :
  let data := [("token", VStr "abc"); ("user", VObj 1%N [("name", VStr "Ada")])] in
  let w := snd (AuthProvider.login (fun _ => "{name:Ada}") "ada@metro.example" "secret"
                  (Answer (Ok2xx (Parsed data))) (boot 0)) in
  let w' := snd (AuthProvider.logout w) in
  localStorage w !! token_key = Some "abc" /\
  localStorage w !! user_key = Some "{name:Ada}" /\
  Auth.token (auth w) = VStr "abc" /\
  localStorage w' !! token_key = None /\
  localStorage w' !! user_key = None /\
  Auth.user (auth w') = VNull.
Proof. repeat split. Qed.

(** A refused login stores nothing. *)
Example login_refused_scenario :
  let out := AuthProvider.login (fun _ => "{}") "ada@metro.example" "wrong"
               (Answer (NotOk (Parsed (VObj 1%N [("error", VStr "Invalid credentials")]))))
               (boot 0) in
  fst out = Throw (Error "Invalid credentials") /\
  localStorage (snd out) = ∅ /\
  map url (requests (snd out)) = [API_BASE +:+ "/auth/login"].
Proof. repeat split. Qed.

(** * The rest of the page *)

(** ** LoginForm *)

Module LoginForm.

Record credentials : Type := { email : string; password : string }.

(** The form keeps a [loading] flag of its own next to the page's state. *)
Record state : Type := { page : world; loading : bool }.

Definition form (A : Type) : Type := state -> outcome A * state.

(** A computation of the page, run from inside the form. *)
Definition on_page {A} (m : js A) : form A :=
  fun s => match m (page s) with
           | (o, w') => (o, {| page := w'; loading := loading s |})
           end.

Definition setLoading (b : bool) : form unit :=
  fun s => (Return tt, {| page := page s; loading := b |}).

Definition and_then {A B} (m : form A) (k : form B) : form B :=
  fun s => match m s with
           | (Return _, s') => k s'
           | (Throw e, s') => (Throw e, s')
           end.

(** [try { m } catch (error) { h error } finally { c }] *)
Definition try_catch_finally {A} (m : form A) (h : exn -> form A) (c : form unit) : form A :=
  fun s =>
    let caught := match m s with
                  | (Return a, s') => (Return a, s')
                  | (Throw e, s') => h e s'
                  end in
    match caught with
    | (r, s') => match c s' with
                 | (Return _, s'') => (r, s'')
                 | (Throw e, s'') => (Throw e, s'')
                 end
    end.

Definition handleSubmit (JSON_stringify : value -> string)
    (c : credentials) (r : reply object) : form unit :=
  if RegisterForm.blank (email c) || RegisterForm.blank (password c) then
    on_page (NotificationProvider.addNotification
               (VStr "Please enter both email and password") "error")
  else
    and_then (setLoading true)
      (try_catch_finally
         (on_page (AuthProvider.login JSON_stringify (email c) (password c) r ;;
                   NotificationProvider.addNotification (VStr "Login successful!") "success"))
         (fun error =>
            on_page (NotificationProvider.addNotification (VStr (message error)) "error"))
         (setLoading false)).

End LoginForm.

(** ** AppContent *)

Inductive view : Type := Spinner | TheDashboard | TheAuthPages.

(** [if (loading) return <spinner/>; return user ? <Dashboard /> : <AuthPages />] *)
Definition AppContent (w : world) : view :=
  if Auth.loading (auth w) then Spinner
  else if truthy (Auth.user (auth w)) then TheDashboard
  else TheAuthPages.

(** Loading the page again, in the same browser: [localStorage] is what
    survives, every component starts from its initial state. *)
Definition reload (w : world) : world :=
  {| localStorage := localStorage w; now := now w; timers := []; requests := [];
     console := []; auth := Auth.init; notifications := []; dash := Dash.init;
     registerLoading := false; null_read_message := null_read_message w |}.

(** ** CreateTaskModal *)

Module CreateTaskModal.

Record formData : Type := {
  title : string;
  description : string;
  priority : string;
  room_number : string;
  estimated_duration : string
}.

(** The state the modal opens with. *)
Definition initial : formData :=
  {| title := EmptyString; description := EmptyString; priority := "normal";
     room_number := EmptyString; estimated_duration := EmptyString |}.

(** A string cut into its characters: each is the bytes of one UTF-8
    sequence, a byte that starts a character with the continuation bytes
    that follow it. *)
Definition continues (ch : string) : bool :=
  match ch with
  | String c _ => let n := Ascii.N_of_ascii c in (128 <=? n)%N && (n <? 192)%N
  | EmptyString => false
  end.

Fixpoint chars (s : string) : list string :=
  match s with
  | EmptyString => []
  | String c rest =>
      match chars rest with
      | ch :: more =>
          if (128 <=? Ascii.N_of_ascii c)%N && continues ch
          then String c ch :: more
          else String c EmptyString :: ch :: more
      | [] => [String c EmptyString]
      end
  end.

(** The code point a character encodes: the payload bits of its first
    byte, then six bits for every byte after it. *)
Definition code_point (ch : string) : N :=
  match ch with
  | EmptyString => 0%N
  | String c rest =>
      let n := Ascii.N_of_ascii c in
      let first := if (n <? 128)%N then n
                   else if (n <? 224)%N then (n - 192)%N
                   else if (n <? 240)%N then (n - 224)%N
                   else (n - 240)%N in
      fold_left (fun acc b => (acc * 64 + Ascii.N_of_ascii b mod 64)%N)
                (list_ascii_of_string rest) first
  end.

(** White space and line terminators, the characters [trim] removes: tab,
    line feed, vertical tab, form feed, carriage return, space, no-break
    space, U+1680, U+2000 to U+200A, U+2028, U+2029, U+202F, U+205F, U+3000
    and U+FEFF. *)
Definition white_code (n : N) : bool :=
  ((9 <=? n) && (n <=? 13) || (n =? 32) || (n =? 160) || (n =? 5760)
   || (8192 <=? n) && (n <=? 8202) || (n =? 8232) || (n =? 8233) || (n =? 8239)
   || (n =? 8287) || (n =? 12288) || (n =? 65279))%N.

Definition white (ch : string) : bool := white_code (code_point ch).

Fixpoint trimStart (cs : list string) : list string :=
  match cs with
  | [] => []
  | ch :: rest => if white ch then trimStart rest else cs
  end.

(** A character stays when it is not white space or when something stays
    after it. *)
Fixpoint trimEnd (cs : list string) : list string :=
  match cs with
  | [] => []
  | ch :: rest =>
      match trimEnd rest with
      | [] => if white ch then [] else [ch]
      | kept => ch :: kept
      end
  end.

(** [s.trim()] *)
Definition trim (s : string) : string :=
  String.concat EmptyString (trimEnd (trimStart (chars s))).

(** What [onSubmit] is handed: the form's fields, with
    [estimated_duration] replaced by [parseInt] of it, or by [undefined]
    when the field is empty. *)
Record taskData (number : Type) : Type := {
  data_title : string;
  data_description : string;
  data_priority : string;
  data_room_number : string;
  data_estimated_duration : option number
}.
Arguments data_title {number} t.
Arguments data_description {number} t.
Arguments data_priority {number} t.
Arguments data_room_number {number} t.
Arguments data_estimated_duration {number} t.

(** The handler, for any [parseInt]: [None] when it returns before calling
    [onSubmit], [Some taskData] when it calls it. *)
Definition handleSubmit {number : Type} (parseInt : string -> number) (d : formData)
  : option (taskData number) :=
  if negb (truthy (VStr (trim (title d)))) then None
  else
    Some {| data_title := title d;
            data_description := description d;
            data_priority := priority d;
            data_room_number := room_number d;
            data_estimated_duration :=
              if truthy (VStr (estimated_duration d))
              then Some (parseInt (estimated_duration d))
              else None |}.

End CreateTaskModal.

(** * Further properties *)

(** ** Session store *)

Section SessionMore.
Variable JSON_stringify : value -> string.
Variable JSON_parse : string -> parsed value.

#[local] Abbreviation login := (AuthProvider.login JSON_stringify).
#[local] Abbreviation register := (AuthProvider.register JSON_stringify).
#[local] Abbreviation mount := (AuthProvider.mount JSON_parse).

(** The request [login] sends. *)
Definition login_request (email password : string) : request :=
  {| method := "POST"; url := API_BASE +:+ "/auth/login"; authorization := None;
     payload := Some (VObj literal [("email", VStr email); ("password", VStr password)]) |}.

Definition register_request (organizationData : value) : request :=
  {| method := "POST"; url := API_BASE +:+ "/auth/register-organization";
     authorization := None; payload := Some organizationData |}.

(** A call to the auth API was turned away: an exception reaches the
    caller, storage and session are as they were. *)
Definition turned_away (w : world) (out : outcome object * world) : Prop :=
  (exists e, fst out = Throw e) /\
  localStorage (snd out) = localStorage w /\
  auth (snd out) = auth w.

(** X1: a call to the auth API that is not answered by a 2xx body that
    parses leaves no trace.  Whatever else happens (no answer at all, a
    non-2xx answer with any body, a 2xx answer that is not JSON), [login]
    and [register] send their one request, without an Authorization header,
    then throw, and write nothing: the storage and the session in memory are
    as they were. *)
Theorem auth_failure_leaves_no_trace (w : world) :
  (forall email password r,
      (forall data, r <> Answer (Ok2xx (Parsed data))) ->
      let out := login email password r w in
      requests (snd out) = requests w ++ [login_request email password] /\
      turned_away w out) /\
  (forall organizationData r,
      (forall data, r <> Answer (Ok2xx (Parsed data))) ->
      let out := register organizationData r w in
      requests (snd out) = requests w ++ [register_request organizationData] /\
      turned_away w out).
Proof.
  split.
  - intros email password r Hr. cbn zeta.
    destruct r as [why|[[why|data]|[why|[]]]];
      try (split; [reflexivity|]; repeat split; eexists; reflexivity).
    destruct (Hr data eq_refl).
  - intros d r Hr. cbn zeta.
    destruct r as [why|[[why|data]|[why|[]]]];
      try (split; [reflexivity|]; repeat split; eexists; reflexivity).
    destruct (Hr data eq_refl).
Qed.


End SessionMore.

(** The network is down. *)
Lemma auth_failure_leaves_no_trace_witness :
  let out := AuthProvider.login (fun _ => "{}") "ada@metro.example" "secret"
               (Unreachable "Failed to fetch") (boot 0) in
  fst out = Throw (TypeError "Failed to fetch") /\
  localStorage (snd out) = localStorage (boot 0) /\
  length (requests (snd out)) = 1%nat.
Proof.
  cbn zeta.
  destruct (proj1 (auth_failure_leaves_no_trace (fun _ => "{}") (boot 0))
              "ada@metro.example" "secret" (Unreachable "Failed to fetch"))
    as (Hreq & _ & Hst & _); [discriminate|].
  split; [reflexivity|]. split; [exact Hst|]. rewrite Hreq. reflexivity.
Defined.


Section Startup.
Variable JSON_stringify : value -> string.
Variable JSON_parse : string -> parsed value.

#[local] Abbreviation login := (AuthProvider.login JSON_stringify).
#[local] Abbreviation mount := (AuthProvider.mount JSON_parse).

(** The probe of the mount effect, for a saved token. *)
Definition probe_request (tok : string) : request :=
  {| method := "GET"; url := API_BASE +:+ "/users";
     authorization := Some ("Bearer " +:+ tok); payload := None |}.

(** The token the mount effect acts on: the saved one, unless it is the
    empty string. *)
Definition saved_token (w : world) : option string :=
  match localStorage w !! token_key with
  | Some tok => if String.eqb tok EmptyString then None else Some tok
  | None => None
  end.

(** The mount effect, case by case.  [Some tok]: the probe goes out. *)
Lemma mount_with_token (r : reply value) (w : world) (tok : string) :
  saved_token w = Some tok ->
  mount r w =
  (AuthProvider.setToken (VStr tok) ;;
   try_finally
     (try_catch
        (let* res := fetch (probe_request tok) r in
         if ok res then
           let* saved := getItem user_key in
           let* userData := AuthProvider.parse JSON_parse (or_else saved (VStr "{}")) in
           AuthProvider.setUser userData
         else
           removeItem token_key ;; removeItem user_key ;; AuthProvider.setToken VNull)
        (fun _ => removeItem token_key ;; removeItem user_key ;; AuthProvider.setToken VNull))
     (AuthProvider.setLoading false)) w.
Proof.
  unfold saved_token. intros H.
  destruct (localStorage w !! token_key) as [tok'|] eqn:Htok; [|discriminate].
  destruct (String.eqb tok' EmptyString) eqn:He; [discriminate|].
  injection H as ->.
  unfold AuthProvider.mount, bind at 1, getItem, read.
  rewrite Htok. unfold truthy. rewrite He. reflexivity.
Qed.

Lemma mount_without_token (r : reply value) (w : world) :
  saved_token w = None -> mount r w = AuthProvider.setLoading false w.
Proof.
  unfold saved_token. intros H.
  unfold AuthProvider.mount, bind at 1, getItem, read.
  destruct (localStorage w !! token_key) as [tok|] eqn:Htok; [|reflexivity].
  destruct (String.eqb tok EmptyString) eqn:He; [|discriminate].
  unfold truthy. rewrite He. reflexivity.
Qed.

(** X3: the mount effect never throws and always ends with [loading] off.
    It sends a request exactly when a non-empty token is saved: then the one
    request is [GET /users] with that token as bearer; with no token saved,
    or an empty one, it sends nothing and touches neither the storage nor
    the session. *)
Theorem mount_contained (r : reply value) (w : world) :
  let out := mount r w in
  fst out = Return tt /\
  Auth.loading (auth (snd out)) = false /\
  match saved_token w with
  | Some tok => requests (snd out) = requests w ++ [probe_request tok]
  | None => requests (snd out) = requests w /\
            localStorage (snd out) = localStorage w /\
            Auth.token (auth (snd out)) = Auth.token (auth w) /\
            Auth.user (auth (snd out)) = Auth.user (auth w)
  end.
Proof.
  cbn zeta. destruct (saved_token w) as [tok|] eqn:Hs.
  - rewrite (mount_with_token r w tok Hs).
    destruct r as [why|[body|body]]; try (repeat split).
    all: run_js; destruct (JSON_parse _); reflexivity.
  - rewrite (mount_without_token r w Hs). repeat split.
Qed.

(** What [getItem] answers in world [w]. *)
Definition item (w : world) (k : string) : value :=
  match localStorage w !! k with
  | Some s => VStr s
  | None => VNull
  end.

(** The world a successful probe leaves. *)
Lemma mount_ok_world (body : parsed value) (w : world) (tok : string) :
  saved_token w = Some tok ->
  snd (mount (Answer (Ok2xx body)) w) =
  match JSON_parse (to_string (or_else (item w user_key) (VStr "{}"))) with
  | Parsed userData =>
      with_auth (fun _ => Auth.mk userData false (VStr tok))
        (with_requests (fun sent => sent ++ [probe_request tok]) w)
  | Garbled _ =>
      with_auth (fun a => Auth.mk (Auth.user a) false VNull)
        (with_localStorage (fun m => delete user_key (delete token_key m))
           (with_requests (fun sent => sent ++ [probe_request tok]) w))
  end.
Proof.
  intros Hs. rewrite (mount_with_token _ w tok Hs). unfold item. run_js.
  destruct (JSON_parse _); reflexivity.
Qed.


(** X4: when the probe succeeds the storage is read, not written: the
    session's token is the saved one and its user is what the saved user
    entry parses to (an entry that is missing or empty counts as [{}]).
    When that entry does not parse, both entries are removed and the token
    is dropped, as on a failed probe. *)
Theorem mount_probe_succeeds (body : parsed value) (w : world) (tok : string) :
  saved_token w = Some tok ->
  let out := mount (Answer (Ok2xx body)) w in
  let saved := match localStorage w !! user_key with
               | Some s => if String.eqb s EmptyString then "{}" else s
               | None => "{}"
               end in
  match JSON_parse saved with
  | Parsed userData =>
      localStorage (snd out) = localStorage w /\
      Auth.token (auth (snd out)) = VStr tok /\
      Auth.user (auth (snd out)) = userData
  | Garbled _ =>
      localStorage (snd out) = delete user_key (delete token_key (localStorage w)) /\
      Auth.token (auth (snd out)) = VNull /\
      Auth.user (auth (snd out)) = Auth.user (auth w)
  end.
Proof.
  intros Hs. cbn zeta. rewrite (mount_with_token _ w tok Hs). run_js.
  destruct (localStorage w !! user_key) as [s|]; unfold or_else, truthy.
  - destruct (String.eqb s EmptyString); simpl;
      destruct (JSON_parse _); repeat split.
  - simpl. destruct (JSON_parse _); repeat split.
Qed.

End Startup.

(** A page on which a token and a user were saved by an earlier visit. *)
Lemma mount_probe_succeeds_witness :
  let parse := fun s => if String.eqb s "u" then Parsed (VObj 1%N [("name", VStr "Ada")])
                        else Garbled "Unexpected token" in
  let w := with_localStorage (fun _ => <[user_key := "u"]> (<[token_key := "abc"]> ∅))
             (boot 0) in
  let out := AuthProvider.mount parse (Answer (Ok2xx (Parsed VNull))) w in
  localStorage (snd out) = localStorage w /\
  Auth.token (auth (snd out)) = VStr "abc" /\
  Auth.user (auth (snd out)) = VObj 1%N [("name", VStr "Ada")].
Proof.
  cbn zeta.
  exact (mount_probe_succeeds
           (fun s => if String.eqb s "u" then Parsed (VObj 1%N [("name", VStr "Ada")])
                     else Garbled "Unexpected token")
           (Parsed VNull)
           (with_localStorage (fun _ => <[user_key := "u"]> (<[token_key := "abc"]> ∅))
              (boot 0))
           "abc" eq_refl).
Defined.

Section Reload.
Variable JSON_stringify : value -> string.
Variable JSON_parse : string -> parsed value.

#[local] Abbreviation login := (AuthProvider.login JSON_stringify).
#[local] Abbreviation mount := (AuthProvider.mount JSON_parse).

Lemma stored_lookup (data : object) (m : gmap string string) :
  stored JSON_stringify data m !! token_key = Some (to_string (prop data "token")) /\
  stored JSON_stringify data m !! user_key
  = Some (to_string (AuthProvider.stringify JSON_stringify (prop data "user"))).
Proof.
  unfold stored. split.
  - rewrite lookup_insert_ne by discriminate. apply lookup_insert_eq.
  - apply lookup_insert_eq.
Qed.

Lemma saved_token_after_login (email password : string) (data : object) (w : world) :
  to_string (prop data "token") <> EmptyString ->
  saved_token (reload (snd (login email password (Answer (Ok2xx (Parsed data))) w)))
  = Some (to_string (prop data "token")).
Proof.
  intros Hne. unfold saved_token.
  change (localStorage (reload ?x)) with (localStorage x).
  rewrite login_success_storage.
  destruct (stored_lookup data (localStorage w)) as [-> _].
  destruct (String.eqb_spec (to_string (prop data "token")) EmptyString);
    [contradiction|reflexivity].
Qed.


(** X6: a login whose answer carries no user does not survive a reload.
    [JSON.stringify(undefined)] is [undefined], so the user entry is stored
    as the text "undefined"; on the next load, with a parser that rejects
    that text (as [JSON.parse] does), even a successful probe ends with both
    entries removed, no token in memory, and the auth pages on screen. *)
Theorem userless_login_lost_on_reload (email password : string) (data : object)
    (body : parsed value) (w : world) (why : string) :
  to_string (prop data "token") <> EmptyString ->
  prop data "user" = VUndefined ->
  JSON_parse "undefined" = Garbled why ->
  let w1 := snd (login email password (Answer (Ok2xx (Parsed data))) w) in
  let w2 := snd (mount (Answer (Ok2xx body)) (reload w1)) in
  localStorage w1 !! user_key = Some "undefined" /\
  localStorage w2 !! token_key = None /\
  localStorage w2 !! user_key = None /\
  Auth.token (auth w2) = VNull /\
  AppContent w2 = TheAuthPages.
Proof.
  intros Htok Huser Hcodec. cbn zeta.
  rewrite (mount_ok_world JSON_parse _ _ _
             (saved_token_after_login email password data w Htok)).
  unfold item. change (localStorage (reload ?x)) with (localStorage x).
  rewrite login_success_storage.
  destruct (stored_lookup data (localStorage w)) as [_ Hu].
  rewrite Huser in Hu. simpl in Hu. rewrite Hu.
  change (to_string (or_else (VStr "undefined") (VStr "{}"))) with "undefined".
  rewrite Hcodec.
  destruct (cleared_neither (stored JSON_stringify data (localStorage w))) as [E1 E2].
  repeat split; assumption.
Qed.

End Reload.


(** The server answers with a token and no user. *)
Lemma userless_login_lost_on_reload_witness :
  let data := [("token", VStr "abc")] in
  let w1 := snd (AuthProvider.login (fun _ => "u") "ada@metro.example" "secret"
                   (Answer (Ok2xx (Parsed data))) (boot 0)) in
  let w2 := snd (AuthProvider.mount (fun _ => Garbled "Unexpected token u")
                   (Answer (Ok2xx (Parsed VNull))) (reload w1)) in
  localStorage w1 !! user_key = Some "undefined" /\
  localStorage w2 !! token_key = None /\
  localStorage w2 !! user_key = None /\
  Auth.token (auth w2) = VNull /\
  AppContent w2 = TheAuthPages.
Proof.
  cbn zeta.
  apply (userless_login_lost_on_reload (fun _ => "u")
           (fun _ => Garbled "Unexpected token u")
           "ada@metro.example" "secret" [("token", VStr "abc")]
           (Parsed VNull) (boot 0) "Unexpected token u");
    try discriminate; reflexivity.
Defined.

(** *** Logging out *)




(** *** What is on screen after the mount effect *)

(** X8: on a freshly loaded page, once the mount effect has run, the
    spinner is gone, and the dashboard is on screen exactly when a non-empty
    token was saved, the probe was answered 2xx, and the saved user entry
    (or [{}] in its absence) parsed to a truthy value; in every other case
    the auth pages are. *)
Theorem dashboard_gate (JSON_parse : string -> parsed value) (r : reply value) (w : world) :
  let w' := snd (AuthProvider.mount JSON_parse r (reload w)) in
  (AppContent w' = TheDashboard \/ AppContent w' = TheAuthPages) /\
  (AppContent w' = TheDashboard <->
   exists tok body userData,
     saved_token w = Some tok /\ r = Answer (Ok2xx body) /\
     JSON_parse (to_string (or_else (item w user_key) (VStr "{}"))) = Parsed userData /\
     truthy userData = true).
Proof.
  cbn zeta.
  change (saved_token w) with (saved_token (reload w)).
  change (item w user_key) with (item (reload w) user_key).
  destruct (saved_token (reload w)) as [tok|] eqn:Hs.
  - destruct r as [why|[body|body]].
    + rewrite (mount_with_token JSON_parse _ _ _ Hs). split; [right; reflexivity|].
      split; [discriminate|]. intros (? & ? & ? & _ & [=] & _).
    + rewrite (mount_ok_world JSON_parse _ _ _ Hs).
      destruct (JSON_parse _) as [why|v] eqn:Hp.
      * split; [right; reflexivity|].
        split; [discriminate|]. intros (? & ? & ? & _ & _ & [=] & _).
      * unfold AppContent. cbn. destruct (truthy v) eqn:Hv.
        -- split; [left; reflexivity|]. split; [|reflexivity].
           intros _. exists tok, body, v. repeat split; assumption.
        -- split; [right; reflexivity|]. split; [discriminate|].
           intros (? & ? & ? & _ & _ & [= <-] & Ht). congruence.
    + rewrite (mount_with_token JSON_parse _ _ _ Hs). split; [right; reflexivity|].
      split; [discriminate|]. intros (? & ? & ? & _ & [=] & _).
  - rewrite (mount_without_token JSON_parse _ _ Hs). split; [right; reflexivity|].
    split; [discriminate|]. intros (? & ? & ? & [=] & _).
Qed.

(** ** The forms *)

Lemma blank_iff (s : string) : RegisterForm.blank s = true <-> s = EmptyString.
Proof.
  unfold RegisterForm.blank, truthy.
  destruct (String.eqb_spec s EmptyString); simpl; split; intros; congruence.
Qed.

Lemma blank_false (s : string) : s <> EmptyString -> RegisterForm.blank s = false.
Proof.
  intros H. destruct (RegisterForm.blank s) eqn:E; [|reflexivity].
  apply blank_iff in E. contradiction.
Qed.

(** X9: a login form submitted with an empty email or an empty password
    calls nothing: no request, no change to storage or session, the form's
    loading flag untouched; the one effect is the error notification
    "Please enter both email and password". *)
Theorem login_blank_credentials (JSON_stringify : value -> string)
    (c : LoginForm.credentials) (r : reply object) (s : LoginForm.state) :
  LoginForm.email c = EmptyString \/ LoginForm.password c = EmptyString ->
  let w := LoginForm.page s in
  let out := LoginForm.handleSubmit JSON_stringify c r s in
  fst out = Return tt /\
  requests (LoginForm.page (snd out)) = requests w /\
  notifications (LoginForm.page (snd out))
    = notifications w ++ [notice w (VStr "Please enter both email and password") "error"] /\
  localStorage (LoginForm.page (snd out)) = localStorage w /\
  auth (LoginForm.page (snd out)) = auth w /\
  LoginForm.loading (snd out) = LoginForm.loading s.
Proof.
  intros H. cbn zeta. unfold LoginForm.handleSubmit.
  assert (B : RegisterForm.blank (LoginForm.email c)
              || RegisterForm.blank (LoginForm.password c) = true).
  { apply Bool.orb_true_iff. destruct H as [H|H]; [left|right]; now apply blank_iff. }
  rewrite B. repeat split.
Qed.

Lemma login_blank_credentials_witness :
  let s := {| LoginForm.page := boot 0; LoginForm.loading := false |} in
  let out := LoginForm.handleSubmit (fun _ => "{}")
               {| LoginForm.email := "ada@metro.example"; LoginForm.password := EmptyString |}
               (Unreachable "offline") s in
  requests (LoginForm.page (snd out)) = [] /\
  map Notification.message (notifications (LoginForm.page (snd out)))
    = [VStr "Please enter both email and password"].
Proof.
  cbn zeta.
  destruct (login_blank_credentials (fun _ => "{}")
              {| LoginForm.email := "ada@metro.example"; LoginForm.password := EmptyString |}
              (Unreachable "offline")
              {| LoginForm.page := boot 0; LoginForm.loading := false |})
    as (_ & Hreq & Hnot & _).
  - right. reflexivity.
  - split; [exact Hreq | rewrite Hnot; reflexivity].
Defined.

(** X10: a login form submitted with both fields filled in never throws,
    whatever the server does.  It calls [login] once, ends with its loading
    flag off, and enqueues exactly one notification: "Login successful!"
    when [login] returned, and otherwise an error whose text is the message
    of what [login] threw.  Storage and session are as [login] left them. *)
Theorem login_submit_reports (JSON_stringify : value -> string)
    (c : LoginForm.credentials) (r : reply object) (s : LoginForm.state) :
  LoginForm.email c <> EmptyString ->
  LoginForm.password c <> EmptyString ->
  let w := LoginForm.page s in
  let res := AuthProvider.login JSON_stringify (LoginForm.email c) (LoginForm.password c) r w in
  let out := LoginForm.handleSubmit JSON_stringify c r s in
  fst out = Return tt /\
  LoginForm.loading (snd out) = false /\
  requests (LoginForm.page (snd out)) = requests (snd res) /\
  localStorage (LoginForm.page (snd out)) = localStorage (snd res) /\
  auth (LoginForm.page (snd out)) = auth (snd res) /\
  notifications (LoginForm.page (snd out))
  = notifications w
    ++ [match fst res with
        | Return _ => notice w (VStr "Login successful!") "success"
        | Throw e => notice w (VStr (message e)) "error"
        end].
Proof.
  intros He Hp. cbn zeta. unfold LoginForm.handleSubmit.
  rewrite (blank_false _ He), (blank_false _ Hp). cbn [orb].
  destruct r as [why|[[why|data]|[why|[]]]]; repeat split.
Qed.

Lemma login_submit_reports_witness :
  let s := {| LoginForm.page := boot 0; LoginForm.loading := false |} in
  let out := LoginForm.handleSubmit (fun _ => "{}")
               {| LoginForm.email := "ada@metro.example"; LoginForm.password := "wrong" |}
               (Answer (NotOk (Parsed (VObj 1%N [("error", VStr "Invalid credentials")])))) s in
  fst out = Return tt /\
  LoginForm.loading (snd out) = false /\
  map Notification.message (notifications (LoginForm.page (snd out)))
    = [VStr "Invalid credentials"].
Proof.
  cbn zeta.
  destruct (login_submit_reports (fun _ => "{}")
              {| LoginForm.email := "ada@metro.example"; LoginForm.password := "wrong" |}
              (Answer (NotOk (Parsed (VObj 1%N [("error", VStr "Invalid credentials")]))))
              {| LoginForm.page := boot 0; LoginForm.loading := false |})
    as (Hret & Hload & _ & _ & _ & Hnot); try discriminate.
  split; [exact Hret|]. split; [exact Hload|]. rewrite Hnot. reflexivity.
Defined.

(** X11: a registration form with any of its four fields empty calls
    nothing: no request, storage and session untouched, the loading flag
    untouched; the one effect is the error notification "Please fill in all
    fields" (also when the password is the empty field: the length check
    comes second). *)
Theorem register_blank_field (JSON_stringify : value -> string)
    (d : RegisterForm.formData) (r : reply object) (w : world) :
  RegisterForm.organizationName d = EmptyString \/
  RegisterForm.adminName d = EmptyString \/
  RegisterForm.adminEmail d = EmptyString \/
  RegisterForm.adminPassword d = EmptyString ->
  let out := RegisterForm.handleSubmit JSON_stringify d r w in
  fst out = Return tt /\
  requests (snd out) = requests w /\
  notifications (snd out)
    = notifications w ++ [notice w (VStr "Please fill in all fields") "error"] /\
  localStorage (snd out) = localStorage w /\
  auth (snd out) = auth w /\
  registerLoading (snd out) = registerLoading w.
Proof.
  intros H. cbn zeta. unfold RegisterForm.handleSubmit.
  assert (B : RegisterForm.blank (RegisterForm.organizationName d)
              || RegisterForm.blank (RegisterForm.adminName d)
              || RegisterForm.blank (RegisterForm.adminEmail d)
              || RegisterForm.blank (RegisterForm.adminPassword d) = true).
  { rewrite !Bool.orb_true_iff, !blank_iff. tauto. }
  rewrite B. repeat split.
Qed.

Lemma register_blank_field_witness :
  let d := {| RegisterForm.organizationName := "Metro General Hospital";
              RegisterForm.adminName := "Ada";
              RegisterForm.adminEmail := "ada@metro.example";
              RegisterForm.adminPassword := EmptyString |} in
  let out := RegisterForm.handleSubmit (fun _ => "{}") d (Unreachable "offline") (boot 0) in
  requests (snd out) = [] /\
  map Notification.message (notifications (snd out)) = [VStr "Please fill in all fields"].
Proof.
  cbn zeta.
  destruct (register_blank_field (fun _ => "{}")
              {| RegisterForm.organizationName := "Metro General Hospital";
                 RegisterForm.adminName := "Ada";
                 RegisterForm.adminEmail := "ada@metro.example";
                 RegisterForm.adminPassword := EmptyString |}
              (Unreachable "offline") (boot 0))
    as (_ & Hreq & Hnot & _).
  - right; right; right. reflexivity.
  - split; [exact Hreq | rewrite Hnot; reflexivity].
Defined.

(** X12: a registration form that passes both checks (four fields filled
    in, password with a [.length] of 8 or more) never throws, whatever the server
    does.  It calls [register] once with the four fields, ends with its
    loading flag off, and enqueues exactly one notification: the welcome
    when [register] returned, and otherwise an error whose text is the
    message of what [register] threw. *)
Theorem register_submit_reports (JSON_stringify : value -> string)
    (d : RegisterForm.formData) (r : reply object) (w : world) :
  RegisterForm.organizationName d <> EmptyString ->
  RegisterForm.adminName d <> EmptyString ->
  RegisterForm.adminEmail d <> EmptyString ->
  (8 <= js_length (RegisterForm.adminPassword d))%nat ->
  let res := AuthProvider.register JSON_stringify (RegisterForm.to_value d) r w in
  let out := RegisterForm.handleSubmit JSON_stringify d r w in
  fst out = Return tt /\
  registerLoading (snd out) = false /\
  requests (snd out) = requests (snd res) /\
  localStorage (snd out) = localStorage (snd res) /\
  auth (snd out) = auth (snd res) /\
  notifications (snd out)
  = notifications w
    ++ [match fst res with
        | Return _ => notice w (VStr "Registration successful! Welcome to ShiftFlow!") "success"
        | Throw e => notice w (VStr (message e)) "error"
        end].
Proof.
  intros H1 H2 H3 Hlen. cbn zeta. unfold RegisterForm.handleSubmit.
  assert (H4 : RegisterForm.adminPassword d <> EmptyString).
  { intros E. rewrite E in Hlen. simpl in Hlen. lia. }
  rewrite !blank_false by assumption. cbn [orb].
  apply Nat.ltb_ge in Hlen. rewrite Hlen.
  destruct r as [why|[[why|data]|[why|[]]]]; repeat split.
Qed.

Lemma register_submit_reports_witness :
  let d := {| RegisterForm.organizationName := "Metro General Hospital";
              RegisterForm.adminName := "Ada";
              RegisterForm.adminEmail := "ada@metro.example";
              RegisterForm.adminPassword := "12345678" |} in
  let out := RegisterForm.handleSubmit (fun _ => "{}") d
               (Answer (NotOk (Garbled "Unexpected token <"))) (boot 0) in
  fst out = Return tt /\
  registerLoading (snd out) = false /\
  map Notification.message (notifications (snd out)) = [VStr "Unexpected token <"].
Proof.
  cbn zeta.
  destruct (register_submit_reports (fun _ => "{}")
              {| RegisterForm.organizationName := "Metro General Hospital";
                 RegisterForm.adminName := "Ada";
                 RegisterForm.adminEmail := "ada@metro.example";
                 RegisterForm.adminPassword := "12345678" |}
              (Answer (NotOk (Garbled "Unexpected token <"))) (boot 0))
    as (Hret & Hload & _ & _ & _ & Hnot); try discriminate.
  - simpl. lia.
  - split; [exact Hret|]. split; [exact Hload|]. rewrite Hnot. reflexivity.
Defined.

(** ** Notification queue *)

Section QueueMore.

Lemma with_notifications_same (f : list Notification.t -> list Notification.t) (w : world) :
  f (notifications w) = notifications w -> with_notifications f w = w.
Proof. destruct w. unfold with_notifications. simpl. now intros ->. Qed.

Lemma expire_absent (id : Z) (ns : list Notification.t) :
  Forall (fun n => Notification.id n <> id) ns -> expire id ns = ns.
Proof.
  induction 1 as [|n ns Hn _ IH]; [reflexivity|].
  unfold expire in *. simpl.
  destruct (Z.eqb_spec (Notification.id n) id); [contradiction|]. simpl. now rewrite IH.
Qed.

Lemma expire_twice (id : Z) (ns : list Notification.t) :
  expire id (expire id ns) = expire id ns.
Proof.
  apply expire_absent, List.Forall_forall. intros n Hn.
  now apply in_expire in Hn as [_ Hn].
Qed.

Lemma step_dismiss_world (id : Z) (w : world) :
  step (Dismiss id) w = with_notifications (expire id) w.
Proof. reflexivity. Qed.

(** X13: [removeNotification id] removes the notifications whose id is
    [id] and no other, keeps the order of those that stay, and cancels no
    timer.  When no notification has that id it changes nothing at all, and
    doing it a second time changes nothing more. *)
Theorem removeNotification_exact (id : Z) (w : world) :
  let w' := snd (NotificationProvider.removeNotification id w) in
  fst (NotificationProvider.removeNotification id w) = Return tt /\
  notifications w' = List.filter (fun n => negb (Notification.id n =? id)) (notifications w) /\
  (forall n, In n (notifications w') <-> In n (notifications w) /\ Notification.id n <> id) /\
  timers w' = timers w /\
  (Forall (fun n => Notification.id n <> id) (notifications w) -> w' = w) /\
  snd (NotificationProvider.removeNotification id w') = w'.
Proof.
  cbn zeta. change (snd (NotificationProvider.removeNotification id w))
    with (with_notifications (expire id) w).
  repeat apply conj; try reflexivity.
  - intros n. apply in_expire.
  - intros H. apply with_notifications_same, expire_absent, H.
  - change (with_notifications (expire id) (with_notifications (expire id) w)
            = with_notifications (expire id) w).
    apply with_notifications_same. cbn. apply expire_twice.
Qed.

(** X14: dismissing a notification whose five seconds are over is a
    no-op.  On any run from the first render, once 5000 ms have passed
    since a notification was enqueued, [removeNotification] with its id
    leaves the whole page as it is. *)
Theorem dismiss_after_expiry (w0 : world) (before after : list event)
    (message : value) (type : string) :
  timers w0 = [] -> notifications w0 = [] ->
  5000 <= elapsed after ->
  let w := run before w0 in
  let w2 := run after (step (Enqueue message type) w) in
  step (Dismiss (now w)) w2 = w2.
Proof.
  intros Ht0 Hn0 Hlate w w2.
  assert (Hok : queue_ok w) by (apply queue_ok_run, queue_ok_start; assumption).
  assert (Hok1 : queue_ok (step (Enqueue message type) w)) by (apply queue_ok_step, Hok).
  destruct (step_enqueue message type w) as (En & Et & Ew).
  rewrite step_dismiss_world. apply with_notifications_same, expire_absent.
  apply List.Forall_forall. intros n Hn Hid.
  apply (gone (now w) w2 n); trivial.
  - apply queue_ok_run, Hok1.
  - apply spent_run; [exact Hok1|]. left. rewrite Et.
    apply List.Exists_app. right. now constructor.
  - unfold w2. rewrite now_run, Ew. lia.
Qed.

Lemma dismiss_after_expiry_witness :
  let w := run [Wait 250] (boot 1000) in
  let w2 := run [Wait 2000; Enqueue (VStr "Task updated successfully!") "success"; Wait 3000]
              (step (Enqueue (VStr "Task created successfully!") "success") w) in
  map Notification.id (notifications w2) = [3250] /\
  step (Dismiss 1250) w2 = w2.
Proof.
  cbn zeta. split; [reflexivity|].
  apply (dismiss_after_expiry (boot 1000) [Wait 250]
           [Wait 2000; Enqueue (VStr "Task updated successfully!") "success"; Wait 3000]
           (VStr "Task created successfully!") "success" eq_refl eq_refl).
  simpl. lia.
Defined.

(** X15: ids are timestamps, so two notifications enqueued within one
    millisecond share an id, and dismissing one of them dismisses both. *)
Theorem same_millisecond_collision (m1 m2 : value) (t1 t2 : string) (w : world) :
  let w2 := run [Enqueue m1 t1; Enqueue m2 t2] w in
  notifications w2
    = notifications w ++ [Notification.mk (now w) m1 t1; Notification.mk (now w) m2 t2] /\
  notifications (step (Dismiss (now w)) w2) = expire (now w) (notifications w).
Proof.
  cbn zeta. split.
  - cbn. now rewrite <- app_assoc.
  - rewrite step_dismiss_world.
    change (expire (now w)
              ((notifications w ++ [Notification.mk (now w) m1 t1])
                 ++ [Notification.mk (now w) m2 t2])
            = expire (now w) (notifications w)).
    unfold expire. rewrite !List.filter_app. simpl.
    rewrite Z.eqb_refl. simpl. now rewrite !app_nil_r.
Qed.

End QueueMore.

(** *** Order of the queue *)

(** Oldest first: no notification has an id above one that follows it. *)
Fixpoint ascending (ns : list Notification.t) : Prop :=
  match ns with
  | [] => True
  | n :: rest =>
      Forall (fun n' => Notification.id n <= Notification.id n') rest /\ ascending rest
  end.

Lemma ascending_expire (id : Z) (ns : list Notification.t) :
  ascending ns -> ascending (expire id ns).
Proof.
  induction ns as [|n ns IH]; [trivial|]. intros [Hn Hns].
  unfold expire in *. simpl. destruct (negb (Notification.id n =? id)).
  - simpl. split; [|now apply IH].
    apply List.Forall_forall. intros n' Hn'. apply filter_In in Hn' as [Hn' _].
    exact (proj1 (List.Forall_forall _ _) Hn n' Hn').
  - now apply IH.
Qed.

Lemma ascending_fired (ready : list timer) (ns : list Notification.t) :
  ascending ns -> ascending (fold_left (fun ns tm => expire (target tm) ns) ready ns).
Proof.
  revert ns. induction ready as [|tm ready IH]; intros ns H; [exact H|].
  simpl. apply IH, ascending_expire, H.
Qed.

Lemma ascending_snoc (ns : list Notification.t) (n : Notification.t) :
  ascending ns ->
  Forall (fun n' => Notification.id n' <= Notification.id n) ns ->
  ascending (ns ++ [n]).
Proof.
  induction ns as [|n0 ns IH]; intros Ha Hle; simpl.
  - split; [constructor|exact I].
  - destruct Ha as [H0 Ha]. apply List.Forall_cons_iff in Hle as [Hle0 Hle].
    split; [|now apply IH].
    apply List.Forall_app. split; [exact H0|]. constructor; [exact Hle0|constructor].
Qed.

(** The queue is in order and none of its ids is in the future. *)
Definition queue_in_order (w : world) : Prop :=
  ascending (notifications w) /\
  Forall (fun n => Notification.id n <= now w) (notifications w).

Lemma queue_in_order_step (e : event) (w : world) :
  queue_in_order w -> queue_in_order (step e w).
Proof.
  intros [Ha Hle]. unfold queue_in_order. destruct e as [m ty|id|ms].
  - destruct (step_enqueue m ty w) as (-> & _ & ->). split.
    + apply ascending_snoc; assumption.
    + apply List.Forall_app. split; [exact Hle|].
      constructor; [simpl; lia|constructor].
  - destruct (step_dismiss id w) as (-> & _ & ->). split.
    + now apply ascending_expire.
    + apply List.Forall_forall. intros n Hn. apply in_expire in Hn as [Hn _].
      exact (proj1 (List.Forall_forall _ _) Hle n Hn).
  - destruct (step_wait ms w) as (-> & _ & ->). split.
    + now apply ascending_fired.
    + apply List.Forall_forall. intros n Hn. apply in_fired in Hn as [Hn _].
      pose proof (proj1 (List.Forall_forall _ _) Hle n Hn). simpl in *. lia.
Qed.

(** X16: the queue is always in order of arrival.  On any run from a page
    with no notification, the ids of the queue never decrease from one
    entry to the next, and none is later than the clock. *)
Theorem queue_oldest_first (w0 : world) (es : list event) :
  notifications w0 = [] ->
  ascending (notifications (run es w0)) /\
  Forall (fun n => Notification.id n <= now (run es w0)) (notifications (run es w0)).
Proof.
  intros Hn0.
  assert (H0 : queue_in_order w0).
  { unfold queue_in_order. rewrite Hn0. split; [exact I|constructor]. }
  clear Hn0. revert w0 H0. induction es as [|e es IH]; intros w0 H0; [exact H0|].
  apply (IH (step e w0)), queue_in_order_step, H0.
Qed.

Lemma queue_oldest_first_witness :
  let w := run [Enqueue (VStr "a") "info"; Wait 10; Enqueue (VStr "b") "error";
                Dismiss 7; Wait 4990; Enqueue (VStr "c") "success"] (boot 7) in
  map Notification.id (notifications w) = [17; 5007] /\
  ascending (notifications w).
Proof.
  cbn zeta. split; [reflexivity|].
  apply (queue_oldest_first (boot 7)
           [Enqueue (VStr "a") "info"; Wait 10; Enqueue (VStr "b") "error";
            Dismiss 7; Wait 4990; Enqueue (VStr "c") "success"] eq_refl).
Defined.

(** X17: no timer is left behind.  On any run from the first render, once
    5000 ms have passed without a new enqueue, no timer is pending, whether
    its notification expired by itself or was dismissed before. *)
Theorem timers_drained (w0 : world) (before after : list event) :
  timers w0 = [] -> notifications w0 = [] ->
  Forall (fun e => ~ is_enqueue e) after ->
  5000 <= elapsed after ->
  timers (run after (run before w0)) = [].
Proof.
  intros Ht0 Hn0 Hne Hlate.
  assert (Hok : queue_ok (run before w0)) by (apply queue_ok_run, queue_ok_start; assumption).
  assert (Hdue : due_by (now (run before w0) + 5000) (run before w0)).
  { destruct Hok as [Ht _]. unfold due_by.
    eapply List.Forall_impl; [|exact Ht]. intros tm (Hd & Hle & _). lia. }
  pose proof (due_by_run _ after _ Hne Hdue) as Hdue'.
  pose proof (queue_ok_run after _ Hok) as [Ht' _].
  pose proof (now_run after (run before w0)) as Hnow.
  unfold timers_ok, due_by in *.
  destruct (timers (run after (run before w0))) as [|tm pending]; [reflexivity|].
  apply List.Forall_cons_iff in Ht' as [(_ & _ & Hpending) _].
  apply List.Forall_cons_iff in Hdue' as [Hd _]. lia.
Qed.

Lemma timers_drained_witness :
  timers (run [Dismiss 1000; Wait 5000]
            (run [Enqueue (VStr "Login successful!") "success"] (boot 1000))) = [].
Proof.
  apply (timers_drained (boot 1000) [Enqueue (VStr "Login successful!") "success"]
           [Dismiss 1000; Wait 5000] eq_refl eq_refl).
  - repeat constructor; simpl; tauto.
  - simpl. lia.
Defined.

(** ** Task board *)

(** The requests of the board, with the session's token as bearer. *)
Definition board_request (w : world) (verb path : string) (body : option value) : request :=
  {| method := verb; url := API_BASE +:+ path;
     authorization := Some ("Bearer " +:+ to_string (Auth.token (auth w)));
     payload := body |}.

(** X18: no failure escapes the board's handlers.  Whatever the server
    does, [loadTasks], [createTask] and [updateTaskStatus] return normally,
    having sent exactly one request: [GET /tasks], [POST /tasks] with the
    task data, [PUT /tasks/<id>] with the new status, each with the
    session's token as bearer. *)
Theorem board_handlers_contained (w : world) :
  (forall r,
      let out := Dashboard.loadTasks r w in
      fst out = Return tt /\
      requests (snd out) = requests w ++ [board_request w "GET" "/tasks" None]) /\
  (forall taskData r,
      let out := Dashboard.createTask taskData r w in
      fst out = Return tt /\
      requests (snd out) = requests w ++ [board_request w "POST" "/tasks" (Some taskData)]) /\
  (forall taskId status r,
      let out := Dashboard.updateTaskStatus taskId status r w in
      fst out = Return tt /\
      requests (snd out)
      = requests w ++ [board_request w "PUT" ("/tasks/" +:+ to_string taskId)
                         (Some (VObj literal [("status", status)]))]).
Proof.
  repeat apply conj.
  - intros r. destruct r as [why|[[why|data]|body]]; split; reflexivity.
  - intros taskData r. destruct r as [why|[[why|data]|[why|[]]]]; split; reflexivity.
  - intros taskId status r. destruct r as [why|[[why|data]|[why|[]]]]; split; reflexivity.
Qed.

(** X19: a successful [loadTasks] replaces the collection wholesale with
    the tasks of the answer, or with the empty list when the answer has no
    [tasks] field; nothing of the previous collection is kept.  It clears
    the loading flag and enqueues no notification. *)
Theorem loadTasks_replaces (data : Dashboard.task_list) (w : world) :
  let out := Dashboard.loadTasks (Answer (Ok2xx (Parsed data))) w in
  Dash.tasks (dash (snd out))
    = match Dashboard.tasks data with Some listed => listed | None => [] end /\
  Dash.loading (dash (snd out)) = false /\
  Dash.showCreateTask (dash (snd out)) = Dash.showCreateTask (dash w) /\
  notifications (snd out) = notifications w /\
  console (snd out) = console w.
Proof. repeat split. Qed.

(** X20: a 2xx answer whose body is not JSON counts as a failure of
    [createTask] and [updateTaskStatus]: the collection and the modal are
    left as they were and the default error notification is enqueued,
    although the server may well have applied the change. *)
Theorem board_garbled_success (taskData taskId status : value) (why : string) (w : world) :
  reported w (snd (Dashboard.createTask taskData (Answer (Ok2xx (Garbled why))) w))
    (VStr "Failed to create task") /\
  reported w (snd (Dashboard.updateTaskStatus taskId status (Answer (Ok2xx (Garbled why))) w))
    (VStr "Failed to update task").
Proof. split; repeat split. Qed.

(** Two entries with one id are both replaced. *)
Lemma updateTaskStatus_replaces_witness :
  let t := [("id", VNum "4"); ("status", VStr "todo")] in
  let t' := [("id", VNum "4"); ("status", VStr "in_progress")] in
  let w := with_dash (fun _ => Dash.mk [t; t] false false) (boot 0) in
  Dash.tasks (dash (snd (Dashboard.updateTaskStatus (VNum "4") (VStr "in_progress")
                           (Answer (Ok2xx (Parsed t'))) w))) !! 1%nat
  = Some t'.
Proof.
  cbn zeta.
  apply (updateTaskStatus_replaces (VNum "4") (VStr "in_progress")
           [("id", VNum "4"); ("status", VStr "in_progress")]
           (with_dash (fun _ => Dash.mk [[("id", VNum "4"); ("status", VStr "todo")];
                                         [("id", VNum "4"); ("status", VStr "todo")]]
                                   false false) (boot 0))
           1%nat [("id", VNum "4"); ("status", VStr "todo")]); reflexivity.
Defined.

(** *** The view *)

Lemma filter_sublist {A} (f : A -> bool) (l : list A) : List.filter f l `sublist_of` l.
Proof.
  induction l as [|x l IH]; simpl; [constructor|].
  destruct (f x); now constructor.
Qed.

Lemma filter_length_all {A} (f : A -> bool) (l : list A) :
  length (List.filter f l) = length l <-> forallb f l = true.
Proof.
  induction l as [|x l IH]; simpl; [tauto|].
  pose proof (List.filter_length_le f l) as Hle.
  destruct (f x); simpl.
  - rewrite <- IH. lia.
  - split; [lia|discriminate].
Qed.

(** X21: the columns keep the order of the collection, and the four
    counters of the board add up to the number of tasks with a recognized
    status: at most the size of the collection, and equal to it exactly
    when no task has an unrecognized status. *)
Theorem board_counts (tasks : list object) :
  let view := Dashboard.tasksByStatus tasks in
  let shown := (length (Dashboard.todo view) + length (Dashboard.in_progress view)
                + length (Dashboard.completed view) + length (Dashboard.handoff view))%nat in
  Dashboard.todo view `sublist_of` tasks /\
  Dashboard.in_progress view `sublist_of` tasks /\
  Dashboard.completed view `sublist_of` tasks /\
  Dashboard.handoff view `sublist_of` tasks /\
  shown = length (List.filter recognized tasks) /\
  (shown <= length tasks)%nat /\
  (shown = length tasks <-> forallb recognized tasks = true).
Proof.
  cbn zeta. unfold Dashboard.tasksByStatus.
  cbn [Dashboard.todo Dashboard.in_progress Dashboard.completed Dashboard.handoff].
  pose proof (Permutation_length (buckets_permutation tasks)) as Hlen.
  rewrite !length_app in Hlen.
  do 4 (split; [apply filter_sublist|]).
  split; [lia|]. split.
  - pose proof (List.filter_length_le recognized tasks). lia.
  - rewrite <- filter_length_all. lia.
Qed.

(** X22: a created task can be invisible.  When the server files the new
    task under a status the board has no column for, [createTask] still
    adds it to the collection and announces success, and no column
    changes. *)
Theorem createTask_unrecognized_status (taskData : value) (newTask : object) (w : world) :
  recognized newTask = false ->
  let out := Dashboard.createTask taskData (Answer (Ok2xx (Parsed newTask))) w in
  length (Dash.tasks (dash (snd out))) = S (length (Dash.tasks (dash w))) /\
  In newTask (Dash.tasks (dash (snd out))) /\
  Dashboard.tasksByStatus (Dash.tasks (dash (snd out)))
    = Dashboard.tasksByStatus (Dash.tasks (dash w)) /\
  notifications (snd out)
    = notifications w ++ [notice w (VStr "Task created successfully!") "success"].
Proof.
  intros H. unfold recognized in H.
  apply Bool.orb_false_iff in H as [H H4].
  apply Bool.orb_false_iff in H as [H H3].
  apply Bool.orb_false_iff in H as [H1 H2].
  cbn zeta. repeat apply conj; try reflexivity.
  - now left.
  - change (Dash.tasks (dash (snd (Dashboard.createTask taskData
                                     (Answer (Ok2xx (Parsed newTask))) w))))
      with (newTask :: Dash.tasks (dash w)).
    unfold Dashboard.tasksByStatus. simpl List.filter.
    now rewrite H1, H2, H3, H4.
Qed.

Lemma createTask_unrecognized_status_witness :
  let newTask := [("id", VNum "9"); ("title", VStr "Check vitals"); ("status", VStr "pending")] in
  let out := Dashboard.createTask (VObj literal [("title", VStr "Check vitals")])
               (Answer (Ok2xx (Parsed newTask))) (boot 0) in
  Dash.tasks (dash (snd out)) = [newTask] /\
  Dashboard.tasksByStatus (Dash.tasks (dash (snd out))) = Dashboard.tasksByStatus [].
Proof.
  cbn zeta. split; [reflexivity|].
  apply (createTask_unrecognized_status (VObj literal [("title", VStr "Check vitals")])
           [("id", VNum "9"); ("title", VStr "Check vitals"); ("status", VStr "pending")]
           (boot 0) eq_refl).
Defined.

(** ** The life of a task through the cards' buttons *)

(** The statuses the buttons of a card lead to. *)
Definition next (currentStatus : value) : list string :=
  map TaskCard.status (TaskCard.getStatusActions currentStatus).

(** A sequence of statuses, each reached from the one before by a button. *)
Fixpoint offered_path (currentStatus : value) (path : list string) : Prop :=
  match path with
  | [] => True
  | s :: rest => In s (next currentStatus) /\ offered_path (VStr s) rest
  end.

Lemma next_cases (currentStatus : value) :
  next currentStatus = [] \/
  (currentStatus = VStr "todo" /\ next currentStatus = ["in_progress"]) \/
  (currentStatus = VStr "in_progress" /\ next currentStatus = ["completed"; "handoff"]) \/
  (currentStatus = VStr "handoff" /\ next currentStatus = ["completed"]).
Proof.
  destruct currentStatus as [| | | |s| |]; try (left; reflexivity).
  destruct (String.eqb_spec s "todo") as [->|H1]; [right; left; now split|].
  destruct (String.eqb_spec s "in_progress") as [->|H2]; [right; right; left; now split|].
  destruct (String.eqb_spec s "handoff") as [->|H3]; [right; right; right; now split|].
  left. unfold next, TaskCard.getStatusActions. simpl.
  apply String.eqb_neq in H1, H2, H3. now rewrite H1, H2, H3.
Qed.

(** X23: the buttons only move a task forward.  Starting from any status,
    a sequence of offered transitions has at most three steps, never enters
    [todo], visits only statuses the board has a column for, and, unless it
    stops at [completed], can still be continued. *)
Theorem transitions_progress (currentStatus : value) (path : list string) :
  offered_path currentStatus path ->
  (length path <= 3)%nat /\
  Forall (fun s => s = "in_progress" \/ s = "handoff" \/ s = "completed") path /\
  (forall s, List.last path s <> "completed" ->
             path <> [] -> next (VStr (List.last path s)) <> []).
Proof.
  intros H.
  assert (Hall : Forall (fun s => s = "in_progress" \/ s = "handoff" \/ s = "completed") path).
  { revert currentStatus H. induction path as [|s path IH]; intros cs H; [constructor|].
    destruct H as [Hs Hrest]. constructor; [|exact (IH _ Hrest)].
    destruct (next_cases cs) as [E|[[_ E]|[[_ E]|[_ E]]]]; rewrite E in Hs; simpl in Hs;
      intuition congruence. }
  split; [|split; [exact Hall|]].
  - destruct path as [|s1 [|s2 [|s3 [|s4 path]]]]; simpl; try lia.
    exfalso. destruct H as (H1 & H2 & H3 & H4 & _).
    destruct (next_cases (VStr s3)) as [E|[[[= ->] E]|[[[= ->] E]|[[= ->] E]]]];
      rewrite E in H4; simpl in H4.
    + exact H4.
    + destruct (next_cases (VStr s2)) as [E2|[[_ E2]|[[_ E2]|[_ E2]]]];
        rewrite E2 in H3; simpl in H3; intuition congruence.
    + destruct (next_cases (VStr s2)) as [E2|[[[= ->] E2]|[[[= ->] E2]|[[= ->] E2]]]];
        rewrite E2 in H3; simpl in H3; try (intuition congruence).
      destruct (next_cases (VStr s1)) as [E1|[[_ E1]|[[_ E1]|[_ E1]]]];
        rewrite E1 in H2; simpl in H2; intuition congruence.
    + destruct (next_cases (VStr s2)) as [E2|[[[= ->] E2]|[[[= ->] E2]|[[= ->] E2]]]];
        rewrite E2 in H3; simpl in H3; try (intuition congruence).
      destruct (next_cases (VStr s1)) as [E1|[[[= ->] E1]|[[[= ->] E1]|[[= ->] E1]]]];
        rewrite E1 in H2; simpl in H2; try (intuition congruence).
      destruct (next_cases currentStatus) as [E0|[[_ E0]|[[_ E0]|[_ E0]]]];
        rewrite E0 in H1; simpl in H1; intuition congruence.
  - intros s Hlast Hne.
    assert (Hin : In (List.last path s) path).
    { destruct path as [|x path]; [contradiction|].
      clear. revert x. induction path as [|y path IH]; intros x; simpl; [now left|].
      right. apply IH. }
    pose proof (proj1 (List.Forall_forall _ _) Hall _ Hin) as [E|[E|E]];
      [rewrite E; discriminate|rewrite E; discriminate|contradiction].
Qed.

(** The longest life: started, handed off, completed. *)
Lemma transitions_progress_witness :
  offered_path (VStr "todo") ["in_progress"; "handoff"; "completed"] /\
  (length ["in_progress"; "handoff"; "completed"] <= 3)%nat.
Proof.
  assert (H : offered_path (VStr "todo") ["in_progress"; "handoff"; "completed"]).
  { simpl. tauto. }
  split; [exact H|].
  exact (proj1 (transitions_progress (VStr "todo") ["in_progress"; "handoff"; "completed"] H)).
Defined.

(** ** The create-task form *)

Section CreateTask.
Import CreateTaskModal.

(** The title has no character that is not white space. *)
Definition all_white (s : string) : bool := forallb white (chars s).

Lemma chars_nonempty (s : string) : Forall (fun ch => ch <> EmptyString) (chars s).
Proof.
  induction s as [|c s IH]; simpl; [constructor|].
  destruct (chars s) as [|ch more]; [repeat constructor; discriminate|].
  apply List.Forall_cons_iff in IH as [Hch Hmore].
  destruct ((128 <=? Ascii.N_of_ascii c)%N && continues ch);
    repeat constructor; try discriminate; assumption.
Qed.

Lemma concat_empty (cs : list string) :
  Forall (fun ch => ch <> EmptyString) cs ->
  String.concat EmptyString cs = EmptyString -> cs = [].
Proof.
  intros H E. destruct cs as [|ch cs]; [reflexivity|]. exfalso.
  apply List.Forall_cons_iff in H as [Hch _].
  destruct ch as [|c ch]; [contradiction|].
  destruct cs; simpl in E; discriminate.
Qed.

Lemma trimStart_head (cs : list string) :
  trimStart cs = [] \/
  exists ch rest, trimStart cs = ch :: rest /\ white ch = false.
Proof.
  induction cs as [|ch cs IH]; simpl; [now left|].
  destruct (white ch) eqn:E; [exact IH|]. right. now exists ch, cs.
Qed.

Lemma trimStart_empty (cs : list string) :
  trimStart cs = [] <-> forallb white cs = true.
Proof.
  induction cs as [|ch cs IH]; simpl; [tauto|].
  destruct (white ch); simpl; [exact IH|]. split; discriminate.
Qed.

Lemma trimEnd_empty (cs : list string) :
  trimEnd cs = [] <-> forallb white cs = true.
Proof.
  induction cs as [|ch cs IH]; simpl; [tauto|].
  destruct (trimEnd cs) eqn:E.
  - destruct (white ch); simpl; [|split; discriminate].
    rewrite <- IH. tauto.
  - split; [discriminate|]. intros H. apply Bool.andb_true_iff in H as [_ H].
    apply IH in H. discriminate.
Qed.

Lemma trimStart_nonempty (cs : list string) :
  Forall (fun ch => ch <> EmptyString) cs ->
  Forall (fun ch => ch <> EmptyString) (trimStart cs).
Proof.
  induction 1 as [|ch cs Hch Hcs IH]; simpl; [constructor|].
  destruct (white ch); [exact IH|now constructor].
Qed.

Lemma trimEnd_nonempty (cs : list string) :
  Forall (fun ch => ch <> EmptyString) cs ->
  Forall (fun ch => ch <> EmptyString) (trimEnd cs).
Proof.
  induction 1 as [|ch cs Hch Hcs IH]; simpl; [constructor|].
  destruct (trimEnd cs).
  - destruct (white ch); repeat constructor; trivial.
  - constructor; [exact Hch|exact IH].
Qed.

Lemma trim_empty (s : string) : trim s = EmptyString <-> all_white s = true.
Proof.
  unfold trim, all_white. split.
  - intros H. apply concat_empty in H;
      [|apply trimEnd_nonempty, trimStart_nonempty, chars_nonempty].
    apply trimEnd_empty in H. apply trimStart_empty.
    destruct (trimStart_head (chars s)) as [E|(ch & rest & E & Hch)]; [exact E|].
    rewrite E in H. simpl in H. rewrite Hch in H. discriminate.
  - intros H. apply trimStart_empty in H. now rewrite H.
Qed.

(** X24: the create-task form submits nothing when its title is empty or
    made of white space only (any of the characters [trim] removes), and
    only then.  When it does submit, the title goes out as typed (not
    trimmed), the other fields are copied, and [estimated_duration] is
    [parseInt] of the field, or absent when the field is empty. *)
Theorem createTask_title_guard {number : Type} (parseInt : string -> number) (d : formData) :
  (handleSubmit parseInt d = None <-> all_white (title d) = true) /\
  (forall t, handleSubmit parseInt d = Some t ->
             data_title t = title d /\
             data_description t = description d /\
             data_priority t = priority d /\
             data_room_number t = room_number d /\
             data_estimated_duration t
             = if String.eqb (estimated_duration d) EmptyString then None
               else Some (parseInt (estimated_duration d))).
Proof.
  unfold handleSubmit, truthy.
  destruct (String.eqb_spec (trim (title d)) EmptyString) as [E|E]; simpl.
  - split; [|discriminate]. apply trim_empty in E. tauto.
  - split.
    + split; [discriminate|]. intros H. apply trim_empty in H. contradiction.
    + intros t [= <-]. simpl.
      destruct (String.eqb (estimated_duration d) EmptyString); repeat split.
Qed.

(** A string from its bytes. *)
Definition utf8 (bytes : list N) : string :=
  string_of_list_ascii (map Ascii.ascii_of_N bytes).

(** A title of blanks, or of an em space (U+2003, bytes E2 80 83) and a
    no-break space (U+00A0, bytes C2 A0), is held back; a title with blanks
    around it goes out with them; a letter with an accent (U+00E9, bytes C3
    A9) is no white space. *)
Example createTask_title_samples :
  handleSubmit (fun s => s) {| title := "  "; description := EmptyString;
                              priority := "normal"; room_number := EmptyString;
                              estimated_duration := "15" |} = None /\
  handleSubmit (fun s => s) {| title := utf8 [226; 128; 131; 194; 160]%N;
                              description := EmptyString;
                              priority := "normal"; room_number := EmptyString;
                              estimated_duration := "15" |} = None /\
  option_map data_title
    (handleSubmit (fun s => s) {| title := " Check vitals "; description := EmptyString;
                                 priority := "urgent"; room_number := "205A";
                                 estimated_duration := EmptyString |})
  = Some " Check vitals " /\
  trim (" " +:+ utf8 [195; 169]%N +:+ utf8 [226; 128; 131]%N) = utf8 [195; 169]%N.
Proof. repeat split. Qed.

End CreateTask.

(** ** Values that are not plain ASCII strings or small integers *)

(** [.length] counts UTF-16 code units, not bytes. *)
Example js_length_samples :
  js_length "1234567" = 7%nat /\
  js_length "пароль1" = 7%nat /\
  js_length "pässwrd" = 7%nat /\
  js_length "naïve café" = 10%nat /\
  js_length "😀" = 2%nat.
Proof. repeat split. Qed.

(** A password of seven Cyrillic and Latin characters is too short. *)
Example register_cyrillic_password :
  let d := {| RegisterForm.organizationName := "Metro General Hospital";
              RegisterForm.adminName := "Ada";
              RegisterForm.adminEmail := "ada@metro.example";
              RegisterForm.adminPassword := "пароль1" |} in
  let out := RegisterForm.handleSubmit (fun _ => "{}") d (Unreachable "offline") (boot 0) in
  requests (snd out) = [] /\
  map Notification.message (notifications (snd out))
    = [VStr "Password must be at least 8 characters"].
Proof. split; reflexivity. Qed.

(** A task whose id is an object: the card hands that very object to
    [updateTaskStatus], and the task is replaced; a look-alike that lives
    elsewhere is not the same id. *)
Example object_id_scenario :
  let id := VObj 7%N [("n", VNum "1")] in
  let t := [("id", id); ("status", VStr "todo")] in
  let t' := [("id", VObj 8%N [("n", VNum "1")]); ("status", VStr "in_progress")] in
  let w := with_dash (fun _ => Dash.mk [t] false false) (boot 0) in
  TaskCard.offered t = [(id, VStr "in_progress")] /\
  Dash.tasks (dash (snd (Dashboard.updateTaskStatus id (VStr "in_progress")
                           (Answer (Ok2xx (Parsed t'))) w))) = [t'] /\
  Dash.tasks (dash (snd (Dashboard.updateTaskStatus (VObj 9%N [("n", VNum "1")])
                           (VStr "in_progress") (Answer (Ok2xx (Parsed t'))) w))) = [t].
Proof. repeat split. Qed.

(** Numbers are printed as [String] prints them: a server that answers
    with the number 1e21 for an error, and a task whose id is that number. *)
Example large_number_scenario :
  fst (AuthProvider.login (fun _ => "{}") "ada@metro.example" "secret"
         (Answer (NotOk (Parsed (VObj 1%N [("error", VNum "1e+21")])))) (boot 0))
  = Throw (Error "1e+21") /\
  map url (requests (snd (Dashboard.updateTaskStatus (VNum "1e+21") (VStr "completed")
                            (Unreachable "offline") (boot 0))))
  = [API_BASE +:+ "/tasks/1e+21"] /\
  truthy (VNum "0") = false /\ truthy (VNum "0.5") = true /\
  strict_eq (VNum "15") (VNum "15") = true /\ strict_eq (VNum "15") (VStr "15") = false.
Proof. repeat split. Qed.
